(** * Completion-polling utilities of banking-mcp

    A shallow embedding of [src/__tests__/e2e/test-utils.ts]: the poll loop
    [pollUntil], the six [waitFor...] wrappers built on it and the
    [retry] helper, followed by the properties of the specification that
    concern them.

    Modelling conventions.
    - JavaScript values are the JSON-shaped values of [JsValue] plus
      [undefined].  Numbers are integers (milliseconds, counters,
      confirmation counts) extended with [NaN]; fractional and infinite
      numbers, among them a fractional [backoffFactor], are outside the
      model.  An integer stands for the JavaScript
      number of the same value, which exists, is printed with its plain
      digits and is computed with exactly as long as it is a safe integer
      ([safeInteger], at most 2^53 - 1 in absolute value); a theorem that
      spells the digits of a number, or the value of a product, assumes
      that much of it.
    - Wall-clock time is an integer number of milliseconds.  One call of
      the accessor takes a non-negative latency chosen by the environment;
      a timer runs for the delay Node.js gives it ([timerDelay]: the
      requested delay, and 1 ms when the request is below 1 or above
      2^31 - 1) plus a non-negative lag chosen by the environment.
    - An asynchronous function is a state transformer over [World]; a
      rejected promise carries the message of the thrown error.
    - The [while] loop of [pollUntil] is driven by fuel; [OutOfFuel] is not
      a behaviour of the program: every timer runs for 1 ms at least, so
      fuel above [maxWait] always produces a real completion
      ([pollLoop_terminates]), and [retry] carries the fuel its [for] loop
      needs. *)

From Stdlib Require Import ZArith NArith Arith List String Ascii Bool Lia.
From Stdlib Require Import DecimalString.
Import ListNotations.

Local Open Scope string_scope.
Local Open Scope Z_scope.

(** ** Characters and text that cannot be written inside a literal *)

Definition dquote : string := String "034" EmptyString.
Definition backslash : string := String "092" EmptyString.
Definition newline : string := String "010" EmptyString.

(** The integers that are JavaScript numbers printed digit by digit and
    computed with exactly: [Number.isSafeInteger]. *)
Definition MAX_SAFE_INTEGER : Z := 9007199254740991.

Definition safeInteger (z : Z) : bool := Z.abs z <=? MAX_SAFE_INTEGER.

(** Template-literal rendering of an integer number: its decimal digits.
    This is what JavaScript prints for a safe integer; larger numbers are
    printed otherwise (rounded digits, and an exponent from 10^21 on), so
    the digits of a number are relied on for safe integers only. *)
Definition decimal (z : Z) : string := NilZero.string_of_int (Z.to_int z).

Fixpoint join (sep : string) (parts : list string) : string :=
  match parts with
  | [] => EmptyString
  | [p] => p
  | p :: rest => p ++ sep ++ join sep rest
  end.

(** [isPrefix p s]: [s] starts with [p]. *)
Fixpoint isPrefix (p s : string) : bool :=
  match p, s with
  | EmptyString, _ => true
  | String a p', String b s' => Ascii.eqb a b && isPrefix p' s'
  | String _ _, EmptyString => false
  end.

(** [includes s sub] is [s.includes(sub)]. *)
Fixpoint includes (s sub : string) : bool :=
  isPrefix sub s ||
  match s with
  | EmptyString => false
  | String _ s' => includes s' sub
  end.

(** ** JavaScript values *)

Set Warnings "-register-all".

Inductive JsNum : Type :=
| JNaN
| JInt (z : Z).

Inductive JsValue : Type :=
| JUndefined
| JNull
| JBool (b : bool)
| JNum (n : JsNum)
| JStr (s : string)
| JArr (items : list JsValue)
| JObj (fields : list (string * JsValue)).

(** Evaluation of a synchronous expression: a value, or a thrown error
    identified by its message. *)
Inductive Eval (A : Type) : Type :=
| Value (a : A)
| Throw (msg : string).
Arguments Value {A} a.
Arguments Throw {A} msg.

(** ToBoolean. *)
Definition truthy (v : JsValue) : bool :=
  match v with
  | JUndefined | JNull => false
  | JBool b => b
  | JNum JNaN => false
  | JNum (JInt z) => negb (z =? 0)
  | JStr s => negb (String.eqb s EmptyString)
  | JArr _ | JObj _ => true
  end.

(** [v === "lit"]. *)
Definition strictEqStr (v : JsValue) (lit : string) : bool :=
  match v with
  | JStr s => String.eqb s lit
  | _ => false
  end.

Fixpoint lookupField (key : string) (fields : list (string * JsValue)) : JsValue :=
  match fields with
  | [] => JUndefined
  | (k, v) :: rest => if String.eqb k key then v else lookupField key rest
  end.

(** [v.key] for the named keys the wrappers read ([status],
    [verificationState], [verificationStatus], [confirmations]): a
    TypeError on [null] and [undefined], the own property of an object,
    [undefined] on every other value. *)
Definition getProp (v : JsValue) (key : string) : Eval JsValue :=
  match v with
  | JUndefined =>
      Throw ("Cannot read properties of undefined (reading '" ++ key ++ "')")
  | JNull =>
      Throw ("Cannot read properties of null (reading '" ++ key ++ "')")
  | JObj fields => Value (lookupField key fields)
  | _ => Value JUndefined
  end.

Definition numberToString (n : JsNum) : string :=
  match n with
  | JNaN => "NaN"
  | JInt z => decimal z
  end.

(** ToString of a value, as used when an array is converted to a
    primitive ([Array.prototype.join] renders [null] and [undefined]
    elements as empty text). *)
Fixpoint toString (v : JsValue) : string :=
  match v with
  | JUndefined => "undefined"
  | JNull => "null"
  | JBool b => if b then "true" else "false"
  | JNum n => numberToString n
  | JStr s => s
  | JArr items =>
      join ","
        ((fix each (l : list JsValue) : list string :=
            match l with
            | [] => []
            | x :: rest =>
                match x with
                | JUndefined | JNull => EmptyString
                | _ => toString x
                end :: each rest
            end) items)
  | JObj _ => "[object Object]"
  end.

(** ** JSON.stringify(value, null, 2) *)

Definition hexDigit (n : N) : string :=
  String (ascii_of_N (if (n <? 10)%N then 48 + n else 87 + n)) EmptyString.

Definition escapeChar (c : ascii) : string :=
  let n := N_of_ascii c in
  if (n =? 34)%N then backslash ++ dquote
  else if (n =? 92)%N then backslash ++ backslash
  else if (n =? 8)%N then backslash ++ "b"
  else if (n =? 9)%N then backslash ++ "t"
  else if (n =? 10)%N then backslash ++ "n"
  else if (n =? 12)%N then backslash ++ "f"
  else if (n =? 13)%N then backslash ++ "r"
  else if (n <? 32)%N then
    backslash ++ "u00" ++ hexDigit (n / 16)%N ++ hexDigit (n mod 16)%N
  else String c EmptyString.

Fixpoint escapeString (s : string) : string :=
  match s with
  | EmptyString => EmptyString
  | String c rest => escapeChar c ++ escapeString rest
  end.

Definition quoteJSON (s : string) : string := dquote ++ escapeString s ++ dquote.

Definition gap : string := "  ".

(** SerializeJSONProperty with a two-space gap: [None] is the
    [undefined] that [JSON.stringify] returns for an unserialisable
    value. *)
Fixpoint serialize (indent : string) (v : JsValue) {struct v} : option string :=
  match v with
  | JUndefined => None
  | JNull => Some "null"
  | JBool b => Some (if b then "true" else "false")
  | JNum JNaN => Some "null"
  | JNum (JInt z) => Some (decimal z)
  | JStr s => Some (quoteJSON s)
  | JArr items =>
      let inner := indent ++ gap in
      let parts :=
        (fix each (l : list JsValue) : list string :=
           match l with
           | [] => []
           | x :: rest =>
               match serialize inner x with
               | Some s => s
               | None => "null"
               end :: each rest
           end) items in
      Some match parts with
           | [] => "[]"
           | _ => "[" ++ newline ++ inner
                  ++ join ("," ++ newline ++ inner) parts
                  ++ newline ++ indent ++ "]"
           end
  | JObj fields =>
      let inner := indent ++ gap in
      let parts :=
        (fix each (l : list (string * JsValue)) : list string :=
           match l with
           | [] => []
           | (k, x) :: rest =>
               match serialize inner x with
               | Some s => (quoteJSON k ++ ": " ++ s) :: each rest
               | None => each rest
               end
           end) fields in
      Some match parts with
           | [] => "{}"
           | _ => "{" ++ newline ++ inner
                  ++ join ("," ++ newline ++ inner) parts
                  ++ newline ++ indent ++ "}"
           end
  end.

Definition JSON_stringify (v : JsValue) : option string := serialize EmptyString v.

(** Every number in [v] is a safe integer (or [NaN]), so that [serialize]
    prints it as [JSON.stringify] does. *)
Fixpoint safeNumbers (v : JsValue) : bool :=
  match v with
  | JNum (JInt z) => safeInteger z
  | JArr items =>
      (fix each (l : list JsValue) : bool :=
         match l with
         | [] => true
         | x :: rest => safeNumbers x && each rest
         end) items
  | JObj fields =>
      (fix each (l : list (string * JsValue)) : bool :=
         match l with
         | [] => true
         | (_, x) :: rest => safeNumbers x && each rest
         end) fields
  | _ => true
  end.

(** [`${JSON.stringify(v, null, 2)}`]. *)
Definition stringifyText (v : JsValue) : string :=
  match JSON_stringify v with
  | Some s => s
  | None => "undefined"
  end.

(** ** The environment and asynchronous computations *)

(** One call of an accessor or operation: how long the awaited promise
    takes, and whether it fulfils or rejects. *)
Record Response : Type := {
  latency : N;
  outcome : Eval JsValue
}.

(** A zero-argument asynchronous function [() => Promise<T>]: its
    response at each call, indexed by the number of calls made before. *)
Definition Accessor : Type := nat -> Response.

(** A synchronous predicate [(result) => boolean], which may throw. *)
Definition Predicate : Type := JsValue -> Eval bool.

(** What the code takes from its runtime: the conversion of a string to a
    number done by [Number(...)], and the lag of each timer (indexed by the
    number of timers set before). *)
Record Runtime : Type := {
  StringToNumber : string -> JsNum;
  timerLag : nat -> N
}.

Record World : Type := {
  now : Z;               (* Date.now() *)
  calls : nat;           (* invocations of the polled function so far *)
  sleeps : list Z;       (* delays handed to setTimeout, oldest first *)
  console : list string  (* lines written by console.log, oldest first *)
}.

Definition initWorld (t0 : Z) : World :=
  {| now := t0; calls := 0; sleeps := []; console := [] |}.

Inductive Completion (A : Type) : Type :=
| Resolved (a : A)
| Rejected (msg : string)
| OutOfFuel.
Arguments Resolved {A} a.
Arguments Rejected {A} msg.
Arguments OutOfFuel {A}.

Definition Async (A : Type) : Type := World -> Completion A * World.

Definition ret {A} (a : A) : Async A := fun w => (Resolved a, w).

Definition throwError {A} (msg : string) : Async A := fun w => (Rejected msg, w).

Definition diverge {A} : Async A := fun w => (OutOfFuel, w).

Definition bind {A B} (m : Async A) (k : A -> Async B) : Async B :=
  fun w =>
    match m w with
    | (Resolved a, w') => k a w'
    | (Rejected msg, w') => (Rejected msg, w')
    | (OutOfFuel, w') => (OutOfFuel, w')
    end.

Notation "x <- m ;; k" := (bind m (fun x => k))
  (at level 61, m at next level, right associativity).
Notation "m ;; k" := (bind m (fun _ => k))
  (at level 61, right associativity).

(** [try { await m } catch (error) { ... }]: the completion of [m] made
    available to the code that follows. *)
Definition settle {A} (m : Async A) : Async (Eval A) :=
  fun w =>
    match m w with
    | (Resolved a, w') => (Resolved (Value a), w')
    | (Rejected msg, w') => (Resolved (Throw msg), w')
    | (OutOfFuel, w') => (OutOfFuel, w')
    end.

Definition dateNow : Async Z := fun w => (Resolved (now w), w).

(** The world once [line] has been written to the console. *)
Definition logged (line : string) (w : World) : World :=
  {| now := now w; calls := calls w; sleeps := sleeps w;
     console := (console w ++ [line])%list |}.

(** The world once the pending call of [fn] has settled. *)
Definition called (fn : Accessor) (w : World) : World :=
  {| now := now w + Z.of_N (latency (fn (calls w))); calls := S (calls w);
     sleeps := sleeps w; console := console w |}.

Definition consoleLog (line : string) : Async unit :=
  fun w => (Resolved tt, logged line w).

(** [await fn()]. *)
Definition awaitCall (fn : Accessor) : Async JsValue :=
  fun w =>
    match outcome (fn (calls w)) with
    | Value v => (Resolved v, called fn w)
    | Throw msg => (Rejected msg, called fn w)
    end.

(** The longest delay of a timer, 2^31 - 1 ms. *)
Definition TIMEOUT_MAX : Z := 2147483647.

(** The delay [setTimeout(callback, ms)] runs for in Node.js: a delay
    below 1 or above [TIMEOUT_MAX] is set to 1. *)
Definition timerDelay (ms : Z) : Z :=
  if (1 <=? ms) && (ms <=? TIMEOUT_MAX) then ms else 1.

Section Program.

Variable rt : Runtime.

(** The world once a timer set for [ms] milliseconds has fired. *)
Definition slept (ms : Z) (w : World) : World :=
  {| now := now w + timerDelay ms + Z.of_N (timerLag rt (List.length (sleeps w)));
     calls := calls w; sleeps := (sleeps w ++ [ms])%list; console := console w |}.

(** [await new Promise((resolve) => setTimeout(resolve, ms))]. *)
Definition sleep (ms : Z) : Async unit :=
  fun w => (Resolved tt, slept ms w).

(** ** pollUntil *)

Record PollOptions : Type := {
  maxWait : option Z;
  pollInterval : option Z;
  timeoutMessage : option string
}.

(** [option || fallback] on an optional number. *)
Definition orNumber (o : option Z) (fallback : Z) : Z :=
  match o with
  | Some v => if v =? 0 then fallback else v
  | None => fallback
  end.

(** [option || fallback] on an optional string. *)
Definition orString (o : option string) (fallback : string) : string :=
  match o with
  | Some s => if String.eqb s EmptyString then fallback else s
  | None => fallback
  end.

Definition effectiveMaxWait (options : PollOptions) : Z :=
  orNumber (maxWait options) 30000.

Definition effectivePollInterval (options : PollOptions) : Z :=
  orNumber (pollInterval options) 1000.

Definition defaultTimeoutMessage (maxWait : Z) (attempts : nat) : string :=
  "pollUntil: condition not met after " ++ decimal maxWait ++ "ms ("
  ++ decimal (Z.of_nat attempts) ++ " attempts)".

(** The message of the error thrown after the loop. *)
Definition timeoutText (options : PollOptions) (attempts : nat)
    (lastResult : JsValue) : string :=
  let timeoutMsg :=
    orString (timeoutMessage options)
             (defaultTimeoutMessage (effectiveMaxWait options) attempts) in
  timeoutMsg ++ newline ++ "Last result: " ++ stringifyText lastResult.

Definition attemptFailedLine (attempts : nat) (msg : string) : string :=
  "[pollUntil] Attempt " ++ decimal (Z.of_nat attempts) ++ " failed: " ++ msg.

(** The [while] loop of [pollUntil] together with the [throw] that
    follows it; [lastResult] and [attempts] are the two local variables. *)
Fixpoint pollLoop (fuel : nat) (fn : Accessor) (condition : Predicate)
    (options : PollOptions) (startTime : Z)
    (lastResult : JsValue) (attempts : nat) {struct fuel} : Async JsValue :=
  match fuel with
  | O => diverge
  | S fuel' =>
      t <- dateNow ;;
      if t - startTime <? effectiveMaxWait options then
        let attempts := S attempts in
        r <- settle (awaitCall fn) ;;
        match r with
        | Value result =>
            match condition result with
            | Value true => ret result
            | Value false =>
                sleep (effectivePollInterval options) ;;
                pollLoop fuel' fn condition options startTime result attempts
            | Throw msg =>
                consoleLog (attemptFailedLine attempts msg) ;;
                sleep (effectivePollInterval options) ;;
                pollLoop fuel' fn condition options startTime result attempts
            end
        | Throw msg =>
            consoleLog (attemptFailedLine attempts msg) ;;
            sleep (effectivePollInterval options) ;;
            pollLoop fuel' fn condition options startTime lastResult attempts
        end
      else
        throwError (timeoutText options attempts lastResult)
  end.

Definition pollUntil (fuel : nat) (fn : Accessor) (condition : Predicate)
    (options : PollOptions) : Async JsValue :=
  startTime <- dateNow ;;
  pollLoop fuel fn condition options startTime JUndefined 0.

(** ** The domain wait wrappers *)

Definition andThen {A B} (e : Eval A) (k : A -> Eval B) : Eval B :=
  match e with
  | Value a => k a
  | Throw msg => Throw msg
  end.

(** A parameter with a default value: [undefined] selects the default. *)
Definition defaultArg (arg : option Z) (default : Z) : Z :=
  match arg with
  | Some v => v
  | None => default
  end.

(** [Number(v)]. *)
Definition toNumber (v : JsValue) : JsNum :=
  match v with
  | JUndefined => JNaN
  | JNull => JInt 0
  | JBool b => JInt (if b then 1 else 0)
  | JNum n => n
  | JStr s => StringToNumber rt s
  | JArr _ | JObj _ => StringToNumber rt (toString v)
  end.

(** [a >= b] on numbers. *)
Definition numGe (a : JsNum) (b : Z) : bool :=
  match a with
  | JNaN => false
  | JInt z => b <=? z
  end.

Record MagnoliaClient : Type := {
  getBankAccount : string -> Accessor
}.

Definition bankAccountVerified : Predicate :=
  fun account =>
    andThen (getProp account "verificationState") (fun verificationState =>
    andThen (if truthy verificationState then Value verificationState
             else getProp account "status") (fun state =>
    Value (strictEqStr state "verified" || strictEqStr state "approved"))).

Definition bankAccountOptions (bankAccountId : string) (maxWait : Z) : PollOptions :=
  {| maxWait := Some maxWait;
     pollInterval := Some 5000;
     timeoutMessage :=
       Some ("Bank account " ++ bankAccountId ++ " not verified after "
             ++ decimal maxWait ++ "ms") |}.

(** Declared [Promise<void>]: the result of the poll is awaited and
    dropped. *)
Definition waitForBankAccountVerification (fuel : nat) (client : MagnoliaClient)
    (bankAccountId : string) (maxWaitArg : option Z) : Async JsValue :=
  let maxWait := defaultArg maxWaitArg 120000 in
  pollUntil fuel (getBankAccount client bankAccountId) bankAccountVerified
            (bankAccountOptions bankAccountId maxWait) ;;
  ret JUndefined.

Definition achDebitCompleted : Predicate :=
  fun result =>
    andThen (getProp result "status") (fun status =>
    Value (strictEqStr status "completed" || strictEqStr status "settled"
           || strictEqStr status "done")).

Definition achDebitOptions (maxWait : Z) : PollOptions :=
  {| maxWait := Some maxWait;
     pollInterval := Some 10000;
     timeoutMessage := Some "ACH debit not completed in time" |}.

Definition waitForAchDebitCompletion (fuel : nat) (getStatusFn : Accessor)
    (maxWaitArg : option Z) : Async JsValue :=
  let maxWait := defaultArg maxWaitArg 300000 in
  pollUntil fuel getStatusFn achDebitCompleted (achDebitOptions maxWait).

Definition orderFilled : Predicate :=
  fun order =>
    andThen (getProp order "status") (fun status =>
    Value (strictEqStr status "filled" || strictEqStr status "done"
           || strictEqStr status "settled")).

Definition orderFillOptions (maxWait : Z) : PollOptions :=
  {| maxWait := Some maxWait;
     pollInterval := Some 2000;
     timeoutMessage := Some "Order not filled in time" |}.

Definition waitForOrderFill (fuel : nat) (getOrderFn : Accessor)
    (maxWaitArg : option Z) : Async JsValue :=
  let maxWait := defaultArg maxWaitArg 60000 in
  pollUntil fuel getOrderFn orderFilled (orderFillOptions maxWait).

Definition transactionConfirmed (minConfirmations : Z) : Predicate :=
  fun transfer =>
    andThen (getProp transfer "status") (fun status =>
    andThen (getProp transfer "confirmations") (fun field =>
    let confirmations :=
      toNumber (if truthy field then field else JNum (JInt 0)) in
    Value (strictEqStr status "confirmed" || strictEqStr status "complete"
           || numGe confirmations minConfirmations))).

Definition transactionOptions (maxWait : Z) : PollOptions :=
  {| maxWait := Some maxWait;
     pollInterval := Some 15000;
     timeoutMessage :=
       Some ("Transaction not confirmed after " ++ decimal maxWait ++ "ms") |}.

Definition waitForTransactionConfirmation (fuel : nat) (getTransferFn : Accessor)
    (minConfirmationsArg : option Z) (maxWaitArg : option Z) : Async JsValue :=
  let minConfirmations := defaultArg minConfirmationsArg 1 in
  let maxWait := defaultArg maxWaitArg 600000 in
  pollUntil fuel getTransferFn (transactionConfirmed minConfirmations)
            (transactionOptions maxWait).

Definition lightningInvoicePaid : Predicate :=
  fun invoice =>
    andThen (getProp invoice "status") (fun status =>
    Value (strictEqStr status "paid" || strictEqStr status "settled"
           || strictEqStr status "completed")).

Definition lightningOptions (maxWait : Z) : PollOptions :=
  {| maxWait := Some maxWait;
     pollInterval := Some 3000;
     timeoutMessage := Some "Lightning invoice not paid in time" |}.

Definition waitForLightningInvoicePaid (fuel : nat) (getInvoiceFn : Accessor)
    (maxWaitArg : option Z) : Async JsValue :=
  let maxWait := defaultArg maxWaitArg 120000 in
  pollUntil fuel getInvoiceFn lightningInvoicePaid (lightningOptions maxWait).

Definition kycApproved : Predicate :=
  fun identity =>
    andThen (getProp identity "status") (fun first =>
    andThen (if truthy first then Value first
             else getProp identity "verificationStatus") (fun status =>
    Value (strictEqStr status "approved" || strictEqStr status "verified"
           || strictEqStr status "complete"))).

Definition kycOptions (maxWait : Z) : PollOptions :=
  {| maxWait := Some maxWait;
     pollInterval := Some 10000;
     timeoutMessage := Some "KYC identity not approved in time" |}.

Definition waitForKycApproval (fuel : nat) (getIdentityFn : Accessor)
    (maxWaitArg : option Z) : Async JsValue :=
  let maxWait := defaultArg maxWaitArg 300000 in
  pollUntil fuel getIdentityFn kycApproved (kycOptions maxWait).

(** ** retry *)

(** The options of [retry], integer numbers: attempt counts, milliseconds
    and an integer [backoffFactor] such as the default 2. *)
Record RetryOptions : Type := {
  maxAttempts : option Z;
  initialDelay : option Z;
  maxDelay : option Z;
  backoffFactor : option Z
}.

Definition effectiveMaxAttempts (options : RetryOptions) : Z :=
  orNumber (maxAttempts options) 3.

Definition effectiveInitialDelay (options : RetryOptions) : Z :=
  orNumber (initialDelay options) 1000.

Definition effectiveMaxDelay (options : RetryOptions) : Z :=
  orNumber (maxDelay options) 10000.

Definition effectiveBackoffFactor (options : RetryOptions) : Z :=
  orNumber (backoffFactor options) 2.

(** [Math.min(initialDelay * Math.pow(backoffFactor, attempt - 1), maxDelay)]. *)
Definition backoffDelay (options : RetryOptions) (attempt : Z) : Z :=
  Z.min (effectiveInitialDelay options
         * effectiveBackoffFactor options ^ (attempt - 1))
        (effectiveMaxDelay options).

Definition retryLine (attempt delay : Z) : string :=
  "[retry] Attempt " ++ decimal attempt ++ " failed, retrying in "
  ++ decimal delay ++ "ms...".

(** The message of the error thrown after the [for] loop; [lastError] is
    [undefined] when the loop body never ran. *)
Definition exhaustedText (options : RetryOptions) (lastError : option string) : string :=
  "Failed after " ++ decimal (effectiveMaxAttempts options) ++ " attempts: "
  ++ match lastError with
     | Some msg => msg
     | None => "undefined"
     end.

(** The [for] loop of [retry] with the [throw] that follows it. *)
Fixpoint retryLoop (fuel : nat) (fn : Accessor) (options : RetryOptions)
    (attempt : Z) (lastError : option string) {struct fuel} : Async JsValue :=
  match fuel with
  | O => diverge
  | S fuel' =>
      if attempt <=? effectiveMaxAttempts options then
        r <- settle (awaitCall fn) ;;
        match r with
        | Value v => ret v
        | Throw msg =>
            if attempt =? effectiveMaxAttempts options then
              throwError (exhaustedText options (Some msg))
            else
              let delay := backoffDelay options attempt in
              consoleLog (retryLine attempt delay) ;;
              sleep delay ;;
              retryLoop fuel' fn options (attempt + 1) (Some msg)
        end
      else
        throwError (exhaustedText options lastError)
  end.

(** The loop runs at most [maxAttempts] times, so this much fuel is
    always enough (lemma [retryLoop_run]). *)
Definition retry (fn : Accessor) (options : RetryOptions) : Async JsValue :=
  retryLoop (S (Z.to_nat (effectiveMaxAttempts options))) fn options 1 None.

End Program.

(** ** A concrete runtime and concrete accessors for the examples *)

(** Conversion of decimal integer numerals (and of the empty string, which
    converts to 0); every other string is taken to [NaN]. *)
Definition decimalStringToNumber (s : string) : JsNum :=
  if String.eqb s EmptyString then JInt 0
  else match NilZero.int_of_string s with
       | Some i => JInt (Z.of_int i)
       | None => JNaN
       end.

(** Timers without lag. *)
Definition promptRuntime : Runtime :=
  {| StringToNumber := decimalStringToNumber; timerLag := fun _ => 0%N |}.

(** An accessor that answers at once. *)
Definition instantly (o : Eval JsValue) : Response :=
  {| latency := 0%N; outcome := o |}.

(** The accessor that replays [script] and then keeps failing. *)
Definition scripted (script : list (Eval JsValue)) : Accessor :=
  fun k => instantly (nth k script (Throw "not found")).

Definition always (o : Eval JsValue) : Accessor := fun _ => instantly o.

Definition pendingResult : JsValue := JObj [("status", JStr "pending")].

Definition orderScript : list (Eval JsValue) :=
  [ Value (JObj [("status", JStr "open")]);
    Value (JObj [("status", JStr "open")]);
    Value (JObj [("status", JStr "filled"); ("filledQuantity", JStr "0.001")]) ].

Definition neverTrue : Predicate := fun _ => Value false.

Definition throwingPredicate : Predicate := fun _ => Throw "boom".

Definition threeSeconds : PollOptions :=
  {| maxWait := Some 3000; pollInterval := Some 1000;
     timeoutMessage := Some "still pending" |}.

Definition shortWindow : PollOptions :=
  {| maxWait := Some 500; pollInterval := Some 1000; timeoutMessage := None |}.

Definition noOptions : PollOptions :=
  {| maxWait := None; pollInterval := None; timeoutMessage := None |}.

Definition filledOrder : JsValue :=
  JObj [("status", JStr "filled"); ("filledQuantity", JStr "0.001")].

Definition verifiedAccount : JsValue := JObj [("status", JStr "verified")].

Definition verifiedClient : MagnoliaClient :=
  {| getBankAccount := fun _ => always (Value verifiedAccount) |}.

Definition sevenAttempts : RetryOptions :=
  {| maxAttempts := Some 7; initialDelay := Some 1000;
     maxDelay := Some 10000; backoffFactor := Some 2 |}.

(** ** Observations of a run *)

(** The attempt whose response is [r] ends the loop: the accessor
    fulfilled and the predicate returned [true] on its result. *)
Definition succeeds (condition : Predicate) (r : Response) : bool :=
  match outcome r with
  | Value v =>
      match condition v with
      | Value true => true
      | _ => false
      end
  | Throw _ => false
  end.

(** Milliseconds between the start of the loop and the start of its
    attempt number [n] (counted from 0) when no earlier attempt ended the
    loop: each earlier attempt costs the latency of its call, the delay
    of its timer and the lag of that timer.  [c] and [s] are the numbers of
    calls made and timers set before the loop. *)
Fixpoint elapsedAt (rt : Runtime) (fn : Accessor) (interval : Z)
    (c s n : nat) : Z :=
  match n with
  | O => 0
  | S n' =>
      Z.of_N (latency (fn c)) + timerDelay interval + Z.of_N (timerLag rt s)
      + elapsedAt rt fn interval (S c) (S s) n'
  end.

(** The value of [lastResult] after [n] more attempts, the first of which
    is call number [c]: the result of the latest fulfilled call, and
    [last] when there is none. *)
Fixpoint lastSeen (fn : Accessor) (c n : nat) (last : JsValue) : JsValue :=
  match n with
  | O => last
  | S n' =>
      lastSeen fn (S c) n'
        match outcome (fn c) with
        | Value v => v
        | Throw _ => last
        end
  end.

(** The predicate that returns [false] where [condition] throws. *)
Definition quiet (condition : Predicate) : Predicate :=
  fun v =>
    match condition v with
    | Throw _ => Value false
    | verdict => verdict
    end.

(** Two worlds that differ at most in what was written to the console. *)
Definition sameUpToConsole (w1 w2 : World) : Prop :=
  now w1 = now w2 /\ calls w1 = calls w2 /\ sleeps w1 = sleeps w2.

(** The attempt numbers [a, a+1, ...] of [k] consecutive iterations. *)
Fixpoint attemptsFrom (a : Z) (k : nat) : list Z :=
  match k with
  | O => []
  | S k' => a :: attemptsFrom (a + 1) k'
  end.

(** What a finished run of the [for] loop of [retry], entered at attempt
    number [attempt], tells about its [n] calls and [k] sleeps. *)
Definition retryShape (fn : Accessor) (options : RetryOptions) (attempt : Z)
    (lastError : option string) (w : World)
    (c : Completion JsValue) (w' : World) (n k : nat) : Prop :=
  calls w' = (calls w + n)%nat
  /\ sleeps w' = (sleeps w ++ map (backoffDelay options) (attemptsFrom attempt k))%list
  /\ (forall j, (j < k)%nat -> exists e, outcome (fn (calls w + j)%nat) = Throw e)
  /\ Z.of_nat n <= Z.max 0 (effectiveMaxAttempts options - attempt + 1)
  /\ match c with
     | Resolved v => n = S k /\ outcome (fn (calls w + k)%nat) = Value v
     | Rejected msg =>
         Z.of_nat n = Z.max 0 (effectiveMaxAttempts options - attempt + 1)
         /\ ((n = 0%nat /\ k = 0%nat /\ msg = exhaustedText options lastError)
             \/ (n = S k
                 /\ exists e, outcome (fn (calls w + k)%nat) = Throw e
                              /\ msg = exhaustedText options (Some e)))
     | OutOfFuel => False
     end.


(** The hypotheses under which attempt number [N] (counted from 0) of a
    run is the first to satisfy the predicate: no earlier attempt ends the
    loop, the call of attempt [N] returns [r], the predicate returns true
    on [r], and the attempt begins before [maxWait] has elapsed. *)
Definition firstSatisfiedAt (rt : Runtime) (fn : Accessor) (condition : Predicate)
    (options : PollOptions) (w : World) (N : nat) (r : JsValue) : Prop :=
  (forall j, (j < N)%nat -> succeeds condition (fn (calls w + j)%nat) = false)
  /\ outcome (fn (calls w + N)%nat) = Value r
  /\ condition r = Value true
  /\ elapsedAt rt fn (effectivePollInterval options)
               (calls w) (List.length (sleeps w)) N < effectiveMaxWait options.

(** The completion [run] of a poll is the first observed result that
    satisfied the predicate: when there is one in time, it is what the
    poll resolves with, and the poll resolves with nothing else. *)
Definition resolvesWithFirstMatch (rt : Runtime) (fuel : nat) (fn : Accessor)
    (condition : Predicate) (options : PollOptions) (w : World)
    (run : Completion JsValue) : Prop :=
  (forall N r,
     (N < fuel)%nat ->
     firstSatisfiedAt rt fn condition options w N r ->
     run = Resolved r)
  /\ (forall r,
        run = Resolved r ->
        exists N,
          (forall j, (j < N)%nat -> succeeds condition (fn (calls w + j)%nat) = false)
          /\ outcome (fn (calls w + N)%nat) = Value r
          /\ condition r = Value true).

(** The field a predicate reads as the status: the first truthy value
    under [keys], and the value under the last key when none is truthy
    (the chain [result.k1 || result.k2]). *)
Fixpoint statusUnder (keys : list string) (fields : list (string * JsValue)) : JsValue :=
  match keys with
  | [] => JUndefined
  | [k] => lookupField k fields
  | k :: rest =>
      if truthy (lookupField k fields) then lookupField k fields
      else statusUnder rest fields
  end.

(** [v] is one of the terminal states [names]. *)
Definition oneOf (names : list string) (v : JsValue) : bool :=
  existsb (strictEqStr v) names.

(** What a finished run of the loop of [pollUntil] tells about the calls
    that were made: [n] calls and [k] timers, a rejection only by the
    deadline, a fulfilment only by the first call that satisfied the
    predicate. *)
Definition runShape (fn : Accessor) (condition : Predicate) (options : PollOptions)
    (start : Z) (last : JsValue) (att : nat) (w : World)
    (c : Completion JsValue) (w' : World) (n k : nat) : Prop :=
  calls w' = (calls w + n)%nat
  /\ sleeps w' = (sleeps w ++ repeat (effectivePollInterval options) k)%list
  /\ (forall j, (j < k)%nat -> succeeds condition (fn (calls w + j)%nat) = false)
  /\ match c with
     | Resolved r =>
         n = S k /\ outcome (fn (calls w + k)%nat) = Value r
         /\ condition r = Value true
     | Rejected msg =>
         n = k /\ effectiveMaxWait options <= now w' - start
         /\ msg = timeoutText options (att + n) (lastSeen fn (calls w) n last)
     | OutOfFuel => n = k
     end.

(** The message an attempt leaves on the console: that of the error thrown
    by the call or, when the call fulfils, by the predicate. *)
Definition failureOf (condition : Predicate) (r : Response) : option string :=
  match outcome r with
  | Throw msg => Some msg
  | Value v =>
      match condition v with
      | Throw msg => Some msg
      | Value _ => None
      end
  end.

(** The console lines of [n] attempts, the first of which is call number
    [c] and comes after [att] earlier attempts. *)
Fixpoint failureLines (fn : Accessor) (condition : Predicate)
    (c att n : nat) : list string :=
  match n with
  | O => []
  | S n' =>
      (match failureOf condition (fn c) with
       | Some msg => [attemptFailedLine (S att) msg]
       | None => []
       end ++ failureLines fn condition (S c) (S att) n')%list
  end.

(** Sum of a list of delays. *)
Definition totalDelay (delays : list Z) : Z := fold_right Z.add 0 delays.

(** ** cleanupTestResources *)

(** The entries of the two listings, with the types the code declares for
    them: [{ id: string; name: string }] and
    [{ id: string; apiKey?: string; name?: string }]. *)
Record BankAccountEntry : Type := {
  accountId : string;
  accountName : string
}.

Record ApiKeyEntry : Type := {
  keyId : string;
  keyApiKey : option string;
  keyName : option string
}.

(** The calls [cleanupTestResources] makes on the client. *)
Inductive CleanupCall : Type :=
| ListBankAccountsCall
| DeleteBankAccountCall (id : string)
| ListApiKeysCall
| DeleteApiKeyCall (id : string).

(** The four client methods the cleanup uses.  Each answers according to
    the calls made before it in this run; the optional list is the
    [bankAccounts] field of the listing, which may be missing. *)
Record CleanupClient : Type := {
  listBankAccounts : list CleanupCall -> Eval (option (list BankAccountEntry));
  deleteBankAccount : list CleanupCall -> string -> Eval unit;
  listApiKeys : list CleanupCall -> Eval (list ApiKeyEntry);
  deleteApiKey : list CleanupCall -> string -> Eval unit
}.

(** [toLowerCase] on the letters A to Z; the other characters of a name do
    not turn into a letter of [test] or [e2e]. *)
Definition lowerChar (c : ascii) : ascii :=
  let n := N_of_ascii c in
  if ((65 <=? n) && (n <=? 90))%N then ascii_of_N (n + 32) else c.

Fixpoint toLowerCase (s : string) : string :=
  match s with
  | EmptyString => EmptyString
  | String c rest => String (lowerChar c) (toLowerCase rest)
  end.

(** [name.toLowerCase().includes("test") || name.toLowerCase().includes("e2e")]. *)
Definition isTestName (name : string) : bool :=
  includes (toLowerCase name) "test" || includes (toLowerCase name) "e2e".

(** The calls made so far and the three variables the function returns. *)
Record CleanupRun : Type := {
  requests : list CleanupCall;
  deletedBankAccounts : nat;
  deletedApiKeys : nat;
  errors : list string
}.

Definition cleanupStart : CleanupRun :=
  {| requests := []; deletedBankAccounts := 0; deletedApiKeys := 0; errors := [] |}.

Definition requested (call : CleanupCall) (st : CleanupRun) : CleanupRun :=
  {| requests := (requests st ++ [call])%list;
     deletedBankAccounts := deletedBankAccounts st;
     deletedApiKeys := deletedApiKeys st;
     errors := errors st |}.

Definition pushError (msg : string) (st : CleanupRun) : CleanupRun :=
  {| requests := requests st;
     deletedBankAccounts := deletedBankAccounts st;
     deletedApiKeys := deletedApiKeys st;
     errors := (errors st ++ [msg])%list |}.

Definition countBankAccount (st : CleanupRun) : CleanupRun :=
  {| requests := requests st;
     deletedBankAccounts := S (deletedBankAccounts st);
     deletedApiKeys := deletedApiKeys st;
     errors := errors st |}.

Definition countApiKey (st : CleanupRun) : CleanupRun :=
  {| requests := requests st;
     deletedBankAccounts := deletedBankAccounts st;
     deletedApiKeys := S (deletedApiKeys st);
     errors := errors st |}.

(** The [for] loop over the bank accounts. *)
Fixpoint deleteTestAccounts (client : CleanupClient)
    (accounts : list BankAccountEntry) (st : CleanupRun) : CleanupRun :=
  match accounts with
  | [] => st
  | account :: rest =>
      deleteTestAccounts client rest
        (if isTestName (accountName account) then
           match deleteBankAccount client (requests st) (accountId account) with
           | Value _ =>
               countBankAccount
                 (requested (DeleteBankAccountCall (accountId account)) st)
           | Throw e =>
               pushError ("Failed to delete bank account " ++ accountId account
                          ++ ": " ++ e)
                 (requested (DeleteBankAccountCall (accountId account)) st)
           end
         else st)
  end.

(** The first [try] block with its [catch]. *)
Definition bankAccountPhase (client : CleanupClient) (st : CleanupRun) : CleanupRun :=
  match listBankAccounts client (requests st) with
  | Value (Some accounts) =>
      deleteTestAccounts client accounts (requested ListBankAccountsCall st)
  | Value None => requested ListBankAccountsCall st
  | Throw e =>
      pushError ("Failed to list/delete bank accounts: " ++ e)
        (requested ListBankAccountsCall st)
  end.

(** [key.apiKey === currentApiKey]; both sides may be [undefined]. *)
Definition isCurrentKey (currentApiKey : option string) (key : ApiKeyEntry) : bool :=
  match keyApiKey key, currentApiKey with
  | Some a, Some b => String.eqb a b
  | None, None => true
  | _, _ => false
  end.

(** [key.name?.toLowerCase().includes("test") ||
     key.name?.toLowerCase().includes("e2e")], as a condition. *)
Definition isTestKey (key : ApiKeyEntry) : bool :=
  match keyName key with
  | Some name => isTestName name
  | None => false
  end.

(** The [for] loop over the API keys. *)
Fixpoint deleteTestKeys (client : CleanupClient) (currentApiKey : option string)
    (keys : list ApiKeyEntry) (st : CleanupRun) : CleanupRun :=
  match keys with
  | [] => st
  | key :: rest =>
      deleteTestKeys client currentApiKey rest
        (if negb (isCurrentKey currentApiKey key) && isTestKey key then
           match deleteApiKey client (requests st) (keyId key) with
           | Value _ =>
               countApiKey (requested (DeleteApiKeyCall (keyId key)) st)
           | Throw e =>
               pushError ("Failed to delete API key " ++ keyId key ++ ": " ++ e)
                 (requested (DeleteApiKeyCall (keyId key)) st)
           end
         else st)
  end.

(** The second [try] block with its [catch]; [currentApiKey] is
    [process.env.MAGNOLIA_API_KEY]. *)
Definition apiKeyPhase (client : CleanupClient) (currentApiKey : option string)
    (st : CleanupRun) : CleanupRun :=
  match listApiKeys client (requests st) with
  | Value keys =>
      deleteTestKeys client currentApiKey keys (requested ListApiKeysCall st)
  | Throw e =>
      pushError ("Failed to list/delete API keys: " ++ e)
        (requested ListApiKeysCall st)
  end.

Definition cleanupTestResources (client : CleanupClient)
    (currentApiKey : option string) : CleanupRun :=
  apiKeyPhase client currentApiKey (bankAccountPhase client cleanupStart).

(** The delete calls of a cleanup. *)
Definition isDelete (call : CleanupCall) : bool :=
  match call with
  | DeleteBankAccountCall _ | DeleteApiKeyCall _ => true
  | _ => false
  end.

(** The number of the two listings that failed. *)
Definition listFailures (client : CleanupClient) : nat :=
  match listBankAccounts client [] with
  | Throw _ => 1
  | Value _ => 0
  end
  + match listApiKeys client (requests (bankAccountPhase client cleanupStart)) with
    | Throw _ => 1
    | Value _ => 0
    end.

(** The bank accounts and the API keys a cleanup sets out to delete. *)
Definition accountsToDelete (accounts : list BankAccountEntry) : list string :=
  map accountId (filter (fun a => isTestName (accountName a)) accounts).

Definition keysToDelete (currentApiKey : option string)
    (keys : list ApiKeyEntry) : list string :=
  map keyId
      (filter (fun k => negb (isCurrentKey currentApiKey k) && isTestKey k) keys).

(** ** MagnoliaClient.request *)

(** The part of [RequestInit] the client uses; a JavaScript object of
    strings is the list of its keys and values in insertion order. *)
Record RequestInit : Type := {
  method : option string;
  initHeaders : option (list (string * string));
  body : option string
}.

Definition noInit : RequestInit :=
  {| method := None; initHeaders := None; body := None |}.

(** What is handed to [fetch]. *)
Record HttpRequest : Type := {
  url : string;
  sentMethod : option string;
  sentHeaders : list (string * string);
  sentBody : option string
}.

(** What comes back: after some time, either the status and the text of a
    response, or a rejection of [fetch] (no connection). *)
Record HttpReply : Type := {
  replyLatency : N;
  reply : Eval (Z * string)
}.

(** The remote service: its reply to the request that is call number [k]
    of the run. *)
Definition Server : Type := nat -> HttpRequest -> HttpReply.

(** [object[key] = value]. *)
Fixpoint setKey (key value : string) (object : list (string * string))
    : list (string * string) :=
  match object with
  | [] => [(key, value)]
  | (k, v) :: rest =>
      if String.eqb k key then (key, value) :: rest
      else (k, v) :: setKey key value rest
  end.

(** [{ ...object, ...extra }]. *)
Definition spread (object extra : list (string * string)) : list (string * string) :=
  fold_left (fun acc kv => setKey (fst kv) (snd kv) acc) extra object.

(** [object[key]]. *)
Fixpoint getKey (key : string) (object : list (string * string)) : option string :=
  match object with
  | [] => None
  | (k, v) :: rest => if String.eqb k key then Some v else getKey key rest
  end.

Definition DEFAULT_API_URL : string := "https://api.magfi.net".

(** [res.ok]. *)
Definition statusOk (status : Z) : bool := (200 <=? status) && (status <=? 299).

(** The request that [request(path, options)] sends, for a client built
    by [new MagnoliaClient(apiKey, apiUrl)]. *)
Definition requestSent (apiKey : string) (apiUrl : option string)
    (path : string) (options : RequestInit) : HttpRequest :=
  let headers :=
    spread [("User-Agent", "ClawBot-MCP/1.0");
            ("Authorization", "Bearer " ++ apiKey)]
           match initHeaders options with
           | Some h => h
           | None => []
           end in
  {| url := orString apiUrl DEFAULT_API_URL ++ path;
     sentMethod := method options;
     sentHeaders :=
       match body options with
       | Some b =>
           if String.eqb b EmptyString then headers
           else setKey "Content-Type" "application/json" headers
       | None => headers
       end;
     sentBody := body options |}.

(** [request(path, options)] as a function that can be polled; [parse] is
    [JSON.parse], with [None] where it throws. *)
Definition request (parse : string -> option JsValue) (apiKey : string)
    (apiUrl : option string) (server : Server)
    (path : string) (options : RequestInit) : Accessor :=
  fun k =>
    let r := server k (requestSent apiKey apiUrl path options) in
    {| latency := replyLatency r;
       outcome :=
         match reply r with
         | Throw e => Throw e
         | Value (status, text) =>
             if statusOk status then
               Value match parse text with
                     | Some v => v
                     | None => JStr text
                     end
             else
               Throw ("Magnolia API error " ++ decimal status ++ " on "
                      ++ orString (method options) "GET" ++ " " ++ path
                      ++ ": " ++ text)
         end |}.

(** [client.getBankAccount(id)], [client.getOrder(accountId, orderId)]. *)
Definition magnoliaClient (parse : string -> option JsValue) (apiKey : string)
    (apiUrl : option string) (server : Server) : MagnoliaClient :=
  {| getBankAccount := fun bankAccountId =>
       request parse apiKey apiUrl server
               ("/api/v2/bankaccounts/" ++ bankAccountId) noInit |}.

Definition getOrder (parse : string -> option JsValue) (apiKey : string)
    (apiUrl : option string) (server : Server)
    (accountId orderId : string) : Accessor :=
  request parse apiKey apiUrl server
          ("/api/prime/trading/v1/accounts/" ++ accountId ++ "/orders/" ++ orderId)
          noInit.

(** The reply is no usable response: [fetch] rejected, or the status is
    not a 2xx one. *)
Definition replyFailed (r : HttpReply) : Prop :=
  match reply r with
  | Throw _ => True
  | Value (status, _) => statusOk status = false
  end.

(** ** Concrete clients and services for the examples *)

(** A stand-in for [JSON.parse] that reads back the JSON text of each
    value of [known] and rejects every other text. *)
Definition parseKnown (known : list JsValue) (text : string) : option JsValue :=
  find (fun v => String.eqb (stringifyText v) text) known.

(** A service that answers 404 to the first two requests and then 200
    with the filled order. *)
Definition flakyServer : Server :=
  fun k _ =>
    {| replyLatency := 0%N;
       reply := if (k <? 2)%nat then Value (404, "not found")
                else Value (200, stringifyText filledOrder) |}.

Definition alwaysFailing : Accessor := always (Throw "not found").

Definition threeAttempts : RetryOptions :=
  {| maxAttempts := None; initialDelay := None; maxDelay := None;
     backoffFactor := None |}.

Definition noAttempts : RetryOptions :=
  {| maxAttempts := Some (-1); initialDelay := None; maxDelay := None;
     backoffFactor := None |}.

Definition negativeWait : PollOptions :=
  {| maxWait := Some (-1); pollInterval := None; timeoutMessage := None |}.

(** Two listed keys named as test keys, the first of which is the key in
    use, and one key of another name. *)
Definition listedKeys : list ApiKeyEntry :=
  [ {| keyId := "k1"; keyApiKey := Some "magfi_live"; keyName := Some "E2E Test Key" |};
    {| keyId := "k2"; keyApiKey := Some "magfi_old"; keyName := Some "e2e runner" |};
    {| keyId := "k3"; keyApiKey := Some "magfi_prod"; keyName := Some "Production" |} ].

Definition cleanupClient : CleanupClient :=
  {| listBankAccounts := fun _ =>
       Value (Some [ {| accountId := "ba1"; accountName := "E2E Test Account" |};
                     {| accountId := "ba2"; accountName := "Payroll" |} ]);
     deleteBankAccount := fun _ _ => Throw "Magnolia API error 500";
     listApiKeys := fun _ => Value listedKeys;
     deleteApiKey := fun _ _ => Value tt |}.

Definition jsonPost : RequestInit :=
  {| method := Some "POST";
     initHeaders := Some [("Content-Type", "text/plain")];
     body := Some "{}" |}.

(** ** Further observations and inputs *)

(** Milliseconds a run spends on the attempts that are followed by a
    timer, when these timers run for [delays]: each such attempt costs the
    latency of its call, the delay of its timer and the lag of that timer.
    [c] and [s] are the numbers of calls made and timers set before. *)
Fixpoint elapsedWith (rt : Runtime) (fn : Accessor) (delays : list Z)
    (c s : nat) : Z :=
  match delays with
  | [] => 0
  | d :: rest =>
      Z.of_N (latency (fn c)) + d + Z.of_N (timerLag rt s)
      + elapsedWith rt fn rest (S c) (S s)
  end.



(** * Properties *)

Lemma timerDelay_positive ms : 1 <= timerDelay ms.
Proof.
  unfold timerDelay.
  destruct (Z.leb_spec 1 ms); destruct (Z.leb_spec ms TIMEOUT_MAX); cbn; lia.
Qed.

Lemma timerDelay_in_range ms : 1 <= ms <= TIMEOUT_MAX -> timerDelay ms = ms.
Proof.
  intros [Hlo Hhi]. unfold timerDelay.
  destruct (Z.leb_spec 1 ms); destruct (Z.leb_spec ms TIMEOUT_MAX); cbn; lia.
Qed.

Lemma elapsedAt_nonneg rt fn interval n :
  forall c s, 0 <= elapsedAt rt fn interval c s n.
Proof.
  induction n as [|n IH]; intros c s; simpl.
  - lia.
  - specialize (IH (S c) (S s)). pose proof (timerDelay_positive interval). lia.
Qed.

Lemma succeeds_true condition r :
  succeeds condition r = true ->
  exists v, outcome r = Value v /\ condition v = Value true.
Proof.
  unfold succeeds. destruct (outcome r) as [v|msg]; [|discriminate].
  destruct (condition v) as [[|]|msg] eqn:Hc; try discriminate.
  intros _. exists v. split; [reflexivity|exact Hc].
Qed.

Section PollLoop.

Variable rt : Runtime.
Variable fn : Accessor.
Variable condition : Predicate.
Variable options : PollOptions.

Let interval := effectivePollInterval options.
Let limit := effectiveMaxWait options.

(** One iteration of the loop. *)
Lemma pollLoop_unfold fuel start last att w :
  pollLoop rt (S fuel) fn condition options start last att w
  = if now w - start <? limit then
      match outcome (fn (calls w)) with
      | Value result =>
          match condition result with
          | Value true => (Resolved result, called fn w)
          | Value false =>
              pollLoop rt fuel fn condition options start result (S att)
                       (slept rt interval (called fn w))
          | Throw msg =>
              pollLoop rt fuel fn condition options start result (S att)
                       (slept rt interval
                          (logged (attemptFailedLine (S att) msg) (called fn w)))
          end
      | Throw msg =>
          pollLoop rt fuel fn condition options start last (S att)
                   (slept rt interval
                      (logged (attemptFailedLine (S att) msg) (called fn w)))
      end
    else (Rejected (timeoutText options att last), w).
Proof.
  cbn [pollLoop]. unfold bind at 1, dateNow at 1. fold limit.
  destruct (now w - start <? limit); [|reflexivity].
  unfold bind at 1, settle, awaitCall.
  destruct (outcome (fn (calls w))) as [v|msg]; [|reflexivity].
  destruct (condition v) as [[|]|msg]; reflexivity.
Qed.

(** World after one attempt that did not end the loop, console apart. *)
Lemma pollLoop_miss fuel start last att w :
  now w - start < limit ->
  succeeds condition (fn (calls w)) = false ->
  exists w1,
    pollLoop rt (S fuel) fn condition options start last att w
    = pollLoop rt fuel fn condition options start
               (lastSeen fn (calls w) 1 last) (S att) w1
    /\ now w1 = now w + Z.of_N (latency (fn (calls w))) + timerDelay interval
                + Z.of_N (timerLag rt (List.length (sleeps w)))
    /\ calls w1 = S (calls w)
    /\ sleeps w1 = (sleeps w ++ [interval])%list.
Proof.
  intros Hlt Hmiss.
  unfold succeeds in Hmiss. rewrite pollLoop_unfold.
  destruct (Z.ltb_spec (now w - start) limit) as [_|Hge]; [|lia].
  cbn [lastSeen].
  destruct (outcome (fn (calls w))) as [v|msg].
  - destruct (condition v) as [[|]|msg]; [discriminate| |];
      eexists; (split; [reflexivity|]); cbn; repeat split; lia.
  - eexists; (split; [reflexivity|]); cbn; repeat split; lia.
Qed.

(** World after the attempt that ends the loop. *)
Lemma pollLoop_hit fuel start last att w r :
  now w - start < limit ->
  outcome (fn (calls w)) = Value r ->
  condition r = Value true ->
  pollLoop rt (S fuel) fn condition options start last att w
  = (Resolved r, called fn w).
Proof.
  intros Hlt Hout Hcond. rewrite pollLoop_unfold.
  destruct (Z.ltb_spec (now w - start) limit) as [_|Hge]; [|lia].
  rewrite Hout, Hcond. reflexivity.
Qed.

(** The deadline has passed: the loop is left and the error thrown. *)
Lemma pollLoop_deadline fuel start last att w :
  limit <= now w - start ->
  pollLoop rt (S fuel) fn condition options start last att w
  = (Rejected (timeoutText options att last), w).
Proof.
  intros Hge. rewrite pollLoop_unfold.
  destruct (Z.ltb_spec (now w - start) limit) as [Hlt|_]; [lia|].
  reflexivity.
Qed.

(** The first attempt that satisfies the predicate, when it begins before
    the deadline, ends the loop with its result. *)
Lemma pollLoop_first_success n :
  forall fuel start last att w r,
    (n < fuel)%nat ->
    (forall j, (j < n)%nat -> succeeds condition (fn (calls w + j)%nat) = false) ->
    outcome (fn (calls w + n)%nat) = Value r ->
    condition r = Value true ->
    now w - start
      + elapsedAt rt fn interval (calls w) (List.length (sleeps w)) n < limit ->
    exists w',
      pollLoop rt fuel fn condition options start last att w = (Resolved r, w')
      /\ calls w' = S (calls w + n)%nat
      /\ sleeps w' = (sleeps w ++ repeat interval n)%list
      /\ now w' = now w
                  + elapsedAt rt fn interval (calls w) (List.length (sleeps w)) n
                  + Z.of_N (latency (fn (calls w + n)%nat)).
Proof.
  induction n as [|n IH]; intros fuel start last att w r Hfuel Hmiss Hout Hcond Htime.
  - destruct fuel as [|fuel]; [lia|].
    rewrite Nat.add_0_r in Hout. cbn [elapsedAt] in Htime.
    rewrite (pollLoop_hit fuel start last att w r) by (assumption || lia).
    eexists; split; [reflexivity|]. cbn.
    rewrite Nat.add_0_r, app_nil_r. repeat split; lia.
  - destruct fuel as [|fuel]; [lia|].
    cbn [elapsedAt] in Htime.
    pose proof (elapsedAt_nonneg rt fn interval n (S (calls w))
                  (S (List.length (sleeps w)))) as Hnn.
    pose proof (timerDelay_positive interval) as Htimer.
    destruct (pollLoop_miss fuel start last att w) as (w1 & Heq & Hnow & Hcalls & Hsleeps).
    { lia. }
    { specialize (Hmiss 0%nat). rewrite Nat.add_0_r in Hmiss. apply Hmiss. lia. }
    assert (Hlen : List.length (sleeps w1) = S (List.length (sleeps w))).
    { rewrite Hsleeps, length_app. simpl. lia. }
    destruct (IH fuel start (lastSeen fn (calls w) 1 last) (S att) w1 r)
      as (w' & Hrun & Hc & Hs & Hn).
    + lia.
    + intros j Hj. rewrite Hcalls.
      replace (S (calls w) + j)%nat with (calls w + S j)%nat by lia.
      apply Hmiss. lia.
    + rewrite Hcalls.
      replace (S (calls w) + n)%nat with (calls w + S n)%nat by lia. exact Hout.
    + exact Hcond.
    + rewrite Hcalls, Hlen. lia.
    + exists w'. rewrite Heq. split; [exact Hrun|].
      rewrite Hc, Hs, Hn, Hcalls, Hlen, Hsleeps.
      cbn [elapsedAt repeat]. rewrite <- app_assoc. cbn [app].
      replace (S (calls w) + n)%nat with (calls w + S n)%nat by lia.
      repeat split; lia.
Qed.

Lemma pollLoop_run fuel :
  forall start last att w,
    exists n k,
      runShape fn condition options start last att w
        (fst (pollLoop rt fuel fn condition options start last att w))
        (snd (pollLoop rt fuel fn condition options start last att w)) n k.
Proof.
  induction fuel as [|fuel IH]; intros start last att w.
  - exists 0%nat, 0%nat. cbn. unfold runShape; cbn.
    rewrite Nat.add_0_r, app_nil_r. repeat split; try (intros; lia).
  - destruct (Z.ltb_spec (now w - start) limit) as [Hlt|Hge].
    + destruct (succeeds condition (fn (calls w))) eqn:Hs.
      * destruct (succeeds_true _ _ Hs) as (r & Hout & Hcond).
        rewrite (pollLoop_hit fuel start last att w r Hlt Hout Hcond).
        exists 1%nat, 0%nat. unfold runShape; cbn.
        rewrite Nat.add_0_r, app_nil_r.
        repeat split; try assumption; try (intros; lia).
      * destruct (pollLoop_miss fuel start last att w Hlt Hs)
          as (w1 & Heq & Hnow & Hcalls & Hsleeps).
        rewrite Heq.
        destruct (IH start (lastSeen fn (calls w) 1 last) (S att) w1)
          as (n & k & Hc & Hsl & Hmiss & Hres).
        exists (S n), (S k). unfold runShape.
        rewrite Hc, Hsl, Hcalls, Hsleeps. rewrite Hcalls in Hmiss, Hres.
        split; [lia|]. split; [rewrite <- app_assoc; reflexivity|].
        split.
        { intros [|j] Hj.
          - rewrite Nat.add_0_r. exact Hs.
          - replace (calls w + S j)%nat with (S (calls w) + j)%nat by lia.
            apply Hmiss. lia. }
        destruct (fst (pollLoop rt fuel fn condition options start
                         (lastSeen fn (calls w) 1 last) (S att) w1)) as [r|msg|].
        -- destruct Hres as (Hn & Hout & Hcond).
           replace (calls w + S k)%nat with (S (calls w) + k)%nat by lia.
           repeat split; try assumption; lia.
        -- destruct Hres as (Hn & Hlim & Hmsg).
           split; [lia|]. split; [exact Hlim|].
           rewrite Hmsg. cbn [lastSeen].
           replace (S att + n)%nat with (att + S n)%nat by lia. reflexivity.
        -- lia.
    + rewrite (pollLoop_deadline fuel start last att w Hge).
      exists 0%nat, 0%nat. unfold runShape; cbn.
      rewrite !Nat.add_0_r, app_nil_r. repeat split; try (intros; lia).
Qed.

(** Every timer runs for 1 ms at least: the clock advances at every
    attempt, so the loop ends within [limit] iterations. *)
Lemma pollLoop_terminates fuel :
  forall start last att w,
    (Z.to_nat (limit - (now w - start)) < fuel)%nat ->
    fst (pollLoop rt fuel fn condition options start last att w) <> OutOfFuel.
Proof.
  pose proof (timerDelay_positive interval) as Htimer.
  induction fuel as [|fuel IH]; intros start last att w Hfuel; [lia|].
  destruct (Z.ltb_spec (now w - start) limit) as [Hlt|Hge].
  - destruct (succeeds condition (fn (calls w))) eqn:Hs.
    + destruct (succeeds_true _ _ Hs) as (r & Hout & Hcond).
      rewrite (pollLoop_hit fuel start last att w r Hlt Hout Hcond).
      discriminate.
    + destruct (pollLoop_miss fuel start last att w Hlt Hs)
        as (w1 & Heq & Hnow & Hcalls & Hsleeps).
      rewrite Heq. apply IH. lia.
  - rewrite (pollLoop_deadline fuel start last att w Hge). discriminate.
Qed.

End PollLoop.

Lemma pollUntil_eq rt fuel fn condition options w :
  pollUntil rt fuel fn condition options w
  = pollLoop rt fuel fn condition options (now w) JUndefined 0 w.
Proof. reflexivity. Qed.

Lemma lastSeen_all_fail fn n :
  forall c last,
    (forall j, (j < n)%nat -> exists e, outcome (fn (c + j)%nat) = Throw e) ->
    lastSeen fn c n last = last.
Proof.
  induction n as [|n IH]; intros c last Hfail; cbn [lastSeen]; [reflexivity|].
  destruct (Hfail 0%nat) as [e He]; [lia|]. rewrite Nat.add_0_r in He.
  rewrite He. apply IH. intros j Hj.
  replace (S c + j)%nat with (c + S j)%nat by lia. apply Hfail. lia.
Qed.

Lemma lastSeen_safe fn n :
  forall c last,
    (forall k v, outcome (fn k) = Value v -> safeNumbers v = true) ->
    safeNumbers last = true ->
    safeNumbers (lastSeen fn c n last) = true.
Proof.
  induction n as [|n IH]; intros c last Hsafe Hlast; cbn [lastSeen]; [exact Hlast|].
  apply IH; [exact Hsafe|].
  destruct (outcome (fn c)) as [v|e] eqn:Hout; [exact (Hsafe c v Hout)|exact Hlast].
Qed.

Lemma failed_call_misses condition r e :
  outcome r = Throw e -> succeeds condition r = false.
Proof. unfold succeeds. intros ->. reflexivity. Qed.

(** *** Worlds that agree up to the console *)

Lemma same_refl w : sameUpToConsole w w.
Proof. repeat split. Qed.

Lemma same_called fn w1 w2 :
  sameUpToConsole w1 w2 -> sameUpToConsole (called fn w1) (called fn w2).
Proof.
  intros (Hn & Hc & Hs). unfold sameUpToConsole, called; cbn.
  rewrite Hn, Hc, Hs. repeat split.
Qed.

Lemma same_slept rt ms w1 w2 :
  sameUpToConsole w1 w2 -> sameUpToConsole (slept rt ms w1) (slept rt ms w2).
Proof.
  intros (Hn & Hc & Hs). unfold sameUpToConsole, slept; cbn.
  rewrite Hn, Hc, Hs. repeat split.
Qed.

Lemma same_logged_l line w1 w2 :
  sameUpToConsole w1 w2 -> sameUpToConsole (logged line w1) w2.
Proof. intros (Hn & Hc & Hs). repeat split; assumption. Qed.

Lemma same_logged line w1 w2 :
  sameUpToConsole w1 w2 -> sameUpToConsole (logged line w1) (logged line w2).
Proof. intros (Hn & Hc & Hs). repeat split; assumption. Qed.

(** A predicate that throws is heard on the console only. *)
Lemma pollLoop_quiet rt fn condition options fuel :
  forall start last att w1 w2,
    sameUpToConsole w1 w2 ->
    fst (pollLoop rt fuel fn condition options start last att w1)
    = fst (pollLoop rt fuel fn (quiet condition) options start last att w2)
    /\ sameUpToConsole
         (snd (pollLoop rt fuel fn condition options start last att w1))
         (snd (pollLoop rt fuel fn (quiet condition) options start last att w2)).
Proof.
  induction fuel as [|fuel IH]; intros start last att w1 w2 Hsame.
  - cbn. split; [reflexivity|exact Hsame].
  - rewrite !pollLoop_unfold.
    pose proof Hsame as (Hn & Hc & Hs). rewrite Hn, Hc.
    destruct (now w2 - start <? effectiveMaxWait options).
    + destruct (outcome (fn (calls w2))) as [v|msg].
      * replace (quiet condition v)
          with (match condition v with
                | Throw _ => Value false
                | verdict => verdict
                end) by reflexivity.
        destruct (condition v) as [[|]|msg].
        -- cbn. split; [reflexivity|]. apply same_called, Hsame.
        -- apply IH. apply same_slept, same_called, Hsame.
        -- apply IH. apply same_slept, same_logged_l, same_called, Hsame.
      * apply IH. apply same_slept, same_logged, same_called, Hsame.
    + cbn. split; [reflexivity|exact Hsame].
Qed.

(** The clock of a run: [n] calls and [k] timers; every attempt began
    before the deadline; the clock at the end is the start plus the cost
    of the [k] attempts that were followed by a sleep, plus the latency of
    the call that ended the loop. *)
Lemma pollLoop_clock rt fn condition options fuel :
  forall start last att w,
    exists n k,
      calls (snd (pollLoop rt fuel fn condition options start last att w))
      = (calls w + n)%nat
      /\ sleeps (snd (pollLoop rt fuel fn condition options start last att w))
         = (sleeps w ++ repeat (effectivePollInterval options) k)%list
      /\ (forall j, (j < n)%nat ->
            now w - start
            + elapsedAt rt fn (effectivePollInterval options)
                        (calls w) (List.length (sleeps w)) j
            < effectiveMaxWait options)
      /\ match fst (pollLoop rt fuel fn condition options start last att w) with
         | Resolved _ =>
             n = S k
             /\ now (snd (pollLoop rt fuel fn condition options start last att w))
                = now w
                  + elapsedAt rt fn (effectivePollInterval options)
                              (calls w) (List.length (sleeps w)) k
                  + Z.of_N (latency (fn (calls w + k)%nat))
         | Rejected _ =>
             n = k
             /\ now (snd (pollLoop rt fuel fn condition options start last att w))
                = now w
                  + elapsedAt rt fn (effectivePollInterval options)
                              (calls w) (List.length (sleeps w)) k
             /\ effectiveMaxWait options
                <= now (snd (pollLoop rt fuel fn condition options start last att w))
                   - start
         | OutOfFuel => n = k
         end.
Proof.
  induction fuel as [|fuel IH]; intros start last att w.
  - exists 0%nat, 0%nat. cbn. rewrite Nat.add_0_r, app_nil_r.
    repeat split; try (intros; lia).
  - destruct (Z.ltb_spec (now w - start) (effectiveMaxWait options)) as [Hlt|Hge].
    + destruct (succeeds condition (fn (calls w))) eqn:Hs.
      * destruct (succeeds_true _ _ Hs) as (r & Hout & Hcond).
        rewrite (pollLoop_hit rt fn condition options fuel start last att w r
                   Hlt Hout Hcond).
        exists 1%nat, 0%nat. cbn. rewrite Nat.add_0_r, app_nil_r.
        repeat split; try lia.
        intros j Hj. replace j with 0%nat by lia. cbn. lia.
      * destruct (pollLoop_miss rt fn condition options fuel start last att w
                    Hlt Hs) as (w1 & Heq & Hnow & Hcalls & Hsleeps).
        rewrite Heq.
        assert (Hlen : List.length (sleeps w1) = S (List.length (sleeps w))).
        { rewrite Hsleeps, length_app. simpl. lia. }
        destruct (IH start (lastSeen fn (calls w) 1 last) (S att) w1)
          as (n & k & Hc & Hsl & Hintime & Hres).
        exists (S n), (S k).
        rewrite Hc, Hsl, Hcalls, Hsleeps. rewrite Hcalls, Hlen in Hintime, Hres.
        split; [lia|]. split; [rewrite <- app_assoc; reflexivity|].
        split.
        { intros [|j] Hj; cbn [elapsedAt]; [lia|].
          specialize (Hintime j ltac:(lia)). lia. }
        destruct (fst (pollLoop rt fuel fn condition options start
                         (lastSeen fn (calls w) 1 last) (S att) w1)) as [r|msg|].
        -- destruct Hres as (Hn & Hclock). split; [lia|].
           rewrite Hclock. cbn [elapsedAt].
           replace (calls w + S k)%nat with (S (calls w) + k)%nat by lia. lia.
        -- destruct Hres as (Hn & Hclock & Hlim). split; [lia|].
           split; [|exact Hlim]. rewrite Hclock. cbn [elapsedAt]. lia.
        -- lia.
    + rewrite (pollLoop_deadline rt fn condition options fuel start last att w Hge).
      exists 0%nat, 0%nat. cbn. rewrite Nat.add_0_r, app_nil_r.
      repeat split; try (intros; lia).
Qed.

(** Each attempt that does not end the loop costs at least the delay of
    its timer. *)
Lemma elapsedAt_lower rt fn interval n :
  forall c s, Z.of_nat n * timerDelay interval <= elapsedAt rt fn interval c s n.
Proof.
  induction n as [|n IH]; intros c s; cbn [elapsedAt]; [lia|].
  specialize (IH (S c) (S s)). lia.
Qed.

(** With an accessor that answers at once and timers without lag, the
    elapsed time is a multiple of the delay of the timers. *)
Lemma elapsedAt_prompt rt fn interval n :
  (forall c, latency (fn c) = 0%N) ->
  (forall s, timerLag rt s = 0%N) ->
  forall c s, elapsedAt rt fn interval c s n = Z.of_nat n * timerDelay interval.
Proof.
  intros Hlat Hlag.
  induction n as [|n IH]; intros c s; cbn [elapsedAt]; [lia|].
  rewrite IH, Hlat, Hlag. lia.
Qed.

(** A poll makes no more calls than [maxWait] has milliseconds. *)
Lemma pollLoop_calls_bound rt fn condition options fuel w :
  exists n,
    calls (snd (pollLoop rt fuel fn condition options (now w) JUndefined 0 w))
    = (calls w + n)%nat
    /\ Z.of_nat n <= Z.max 0 (effectiveMaxWait options).
Proof.
  destruct (pollLoop_clock rt fn condition options fuel (now w) JUndefined 0%nat w)
    as (n & k & Hc & _ & Hintime & _).
  exists n. split; [exact Hc|].
  destruct n as [|n]; [lia|].
  specialize (Hintime n ltac:(lia)).
  pose proof (elapsedAt_lower rt fn (effectivePollInterval options) n (calls w)
                (List.length (sleeps w))) as Hlow.
  pose proof (timerDelay_positive (effectivePollInterval options)) as Htimer.
  rewrite Nat2Z.inj_succ. nia.
Qed.

(** ** The claims about pollUntil *)

(** Failed calls followed in time by a call whose result satisfies the
    predicate. *)
Lemma pollUntil_after_failures
    rt fuel fn condition options w (N : nat) r :
  (N < fuel)%nat ->
  (forall j, (j < N)%nat -> exists e, outcome (fn (calls w + j)%nat) = Throw e) ->
  outcome (fn (calls w + N)%nat) = Value r ->
  condition r = Value true ->
  elapsedAt rt fn (effectivePollInterval options)
            (calls w) (List.length (sleeps w)) N < effectiveMaxWait options ->
  fst (pollUntil rt fuel fn condition options w) = Resolved r
  /\ calls (snd (pollUntil rt fuel fn condition options w)) = (calls w + N + 1)%nat
  /\ sleeps (snd (pollUntil rt fuel fn condition options w))
     = (sleeps w ++ repeat (effectivePollInterval options) N)%list.
Proof.
  intros Hfuel Hfail Hout Hcond Htime. rewrite pollUntil_eq.
  destruct (pollLoop_first_success rt fn condition options N fuel (now w)
              JUndefined 0%nat w r) as (w' & Hrun & Hc & Hs & _);
    try assumption.
  - intros j Hj. destruct (Hfail j Hj) as [e He].
    exact (failed_call_misses condition _ e He).
  - lia.
  - rewrite Hrun. cbn. repeat split; [lia|exact Hs].
Qed.

(** C4 (accessor-failure tolerance).  For every [N], when the accessor
    throws on each of the first [N] attempts, fulfils on attempt [N+1] with
    a result on which the predicate returns true, and that attempt begins
    while the elapsed time is under [maxWait], [pollUntil] resolves with
    that result after [N+1] calls and [N] sleeps of [pollInterval]: the
    earlier failures neither end the loop nor reach the caller. *)
Theorem pollUntil_tolerates_accessor_failures
    rt fuel fn condition options w (N : nat) r :
  (N < fuel)%nat ->
  (forall j, (j < N)%nat -> exists e, outcome (fn (calls w + j)%nat) = Throw e) ->
  outcome (fn (calls w + N)%nat) = Value r ->
  condition r = Value true ->
  elapsedAt rt fn (effectivePollInterval options)
            (calls w) (List.length (sleeps w)) N < effectiveMaxWait options ->
  fst (pollUntil rt fuel fn condition options w) = Resolved r
  /\ calls (snd (pollUntil rt fuel fn condition options w)) = (calls w + N + 1)%nat
  /\ sleeps (snd (pollUntil rt fuel fn condition options w))
     = (sleeps w ++ repeat (effectivePollInterval options) N)%list.
Proof.
  apply pollUntil_after_failures.
Qed.

(** C5 (success at the first attempt).  When the predicate returns true
    on the result of the first call ([maxWait] being positive, so that a
    first call is made), [pollUntil] resolves with that result after
    exactly one call of the accessor and without setting any timer; the
    clock has advanced by the latency of that call only. *)
Theorem pollUntil_immediate_success rt fuel fn condition options w r :
  (0 < fuel)%nat ->
  0 < effectiveMaxWait options ->
  outcome (fn (calls w)) = Value r ->
  condition r = Value true ->
  pollUntil rt fuel fn condition options w = (Resolved r, called fn w)
  /\ calls (called fn w) = S (calls w)
  /\ sleeps (called fn w) = sleeps w
  /\ now (called fn w) = now w + Z.of_N (latency (fn (calls w))).
Proof.
  intros Hfuel Hwait Hout Hcond. rewrite pollUntil_eq.
  destruct fuel as [|fuel]; [lia|].
  rewrite (pollLoop_hit rt fn condition options fuel (now w) JUndefined 0%nat w r)
    by (assumption || lia).
  repeat split.
Qed.

(** C1, amended.  An exception of the predicate is caught by the same
    handler as a failure of the accessor: it is written to the console,
    the result stays recorded as the last one, and after the sleep polling
    goes on.  Replacing the predicate by one that returns false wherever it
    throws changes neither the completion of [pollUntil], nor the clock,
    the calls made or the timers set; and whenever [pollUntil] rejects,
    the error is the timeout error. *)
Theorem pollUntil_predicate_errors_suppressed rt fuel fn condition options w :
  (forall r e,
     outcome (fn (calls w)) = Value r ->
     condition r = Throw e ->
     0 < effectiveMaxWait options ->
     pollUntil rt (S fuel) fn condition options w
     = pollLoop rt fuel fn condition options (now w) r 1
         (slept rt (effectivePollInterval options)
            (logged (attemptFailedLine 1 e) (called fn w))))
  /\ fst (pollUntil rt fuel fn condition options w)
     = fst (pollUntil rt fuel fn (quiet condition) options w)
  /\ sameUpToConsole (snd (pollUntil rt fuel fn condition options w))
                     (snd (pollUntil rt fuel fn (quiet condition) options w))
  /\ forall msg,
       fst (pollUntil rt fuel fn condition options w) = Rejected msg ->
       exists attempts,
         msg = timeoutText options attempts
                           (lastSeen fn (calls w) attempts JUndefined).
Proof.
  split.
  { intros r e Hout Hcond Hwait. rewrite pollUntil_eq, pollLoop_unfold.
    destruct (Z.ltb_spec (now w - now w) (effectiveMaxWait options)) as [_|Hge];
      [|lia].
    rewrite Hout, Hcond. reflexivity. }
  rewrite !pollUntil_eq.
  destruct (pollLoop_quiet rt fn condition options fuel (now w) JUndefined
              0%nat w w (same_refl w)) as [Hfst Hsnd].
  split; [exact Hfst|]. split; [exact Hsnd|].
  intros msg Hrej.
  destruct (pollLoop_run rt fn condition options fuel (now w) JUndefined 0%nat w)
    as (n & k & _ & _ & _ & Hres).
  rewrite Hrej in Hres. destruct Hres as (_ & _ & Hmsg).
  exists n. exact Hmsg.
Qed.

(** C2, amended.  With [0 < maxWait < pollInterval], the poll interval
    being a delay a timer can take (at most 2^31 - 1 ms), the loop is
    entered once, because no time has elapsed at its first test:
    [pollUntil] calls the accessor exactly once.  It resolves with the
    result of that call when the predicate returns true on it; otherwise it
    sleeps once for [pollInterval] and rejects with the timeout error of a
    poll of one attempt. *)
Theorem pollUntil_short_window_polls_once rt fuel fn condition options w :
  (2 <= fuel)%nat ->
  0 < effectiveMaxWait options < effectivePollInterval options ->
  effectivePollInterval options <= TIMEOUT_MAX ->
  calls (snd (pollUntil rt fuel fn condition options w)) = S (calls w)
  /\ if succeeds condition (fn (calls w))
     then exists r,
            outcome (fn (calls w)) = Value r
            /\ fst (pollUntil rt fuel fn condition options w) = Resolved r
            /\ sleeps (snd (pollUntil rt fuel fn condition options w)) = sleeps w
     else fst (pollUntil rt fuel fn condition options w)
          = Rejected (timeoutText options 1 (lastSeen fn (calls w) 1 JUndefined))
          /\ sleeps (snd (pollUntil rt fuel fn condition options w))
             = (sleeps w ++ [effectivePollInterval options])%list.
Proof.
  intros Hfuel [Hpos Hlt] Hmax. rewrite pollUntil_eq.
  destruct fuel as [|[|fuel]]; try lia.
  destruct (succeeds condition (fn (calls w))) eqn:Hs.
  - destruct (succeeds_true _ _ Hs) as (r & Hout & Hcond).
    rewrite (pollLoop_hit rt fn condition options (S fuel) (now w) JUndefined
               0%nat w r) by (assumption || lia).
    split; [reflexivity|]. exists r. repeat split. exact Hout.
  - destruct (pollLoop_miss rt fn condition options (S fuel) (now w) JUndefined
                0%nat w) as (w1 & Heq & Hnow & Hcalls & Hsleeps);
      [lia|exact Hs|].
    rewrite timerDelay_in_range in Hnow by lia.
    rewrite Heq, pollLoop_deadline by lia. cbn [fst snd].
    repeat split; assumption.
Qed.

(** C3, amended.  When [pollUntil] rejects, the message of the error is
    the effective timeout message (the caller's [timeoutMessage] when it is
    given and not empty, otherwise the default one, which alone states
    [maxWait] and the number of attempts), a line break, [Last result: ]
    and the JSON text of the last result the accessor returned, or the word
    [undefined] when every attempt failed.  The numbers are spelled as
    JavaScript prints safe integers: [maxWait] and the numbers in the
    results are taken to be safe, and the number of attempts, at most
    [maxWait], is safe then.  Such a rejection is what a run ends with
    when the predicate never returns true. *)
Theorem pollUntil_timeout_message rt fuel fn condition options w :
  (forall msg,
     safeInteger (effectiveMaxWait options) = true ->
     (forall k v, outcome (fn k) = Value v -> safeNumbers v = true) ->
     fst (pollUntil rt fuel fn condition options w) = Rejected msg ->
     exists attempts,
       calls (snd (pollUntil rt fuel fn condition options w))
       = (calls w + attempts)%nat
       /\ safeInteger (Z.of_nat attempts) = true
       /\ safeNumbers (lastSeen fn (calls w) attempts JUndefined) = true
       /\ msg = orString (timeoutMessage options)
                  ("pollUntil: condition not met after "
                   ++ decimal (effectiveMaxWait options) ++ "ms ("
                   ++ decimal (Z.of_nat attempts) ++ " attempts)")
                ++ newline ++ "Last result: "
                ++ match JSON_stringify (lastSeen fn (calls w) attempts JUndefined) with
                   | Some json => json
                   | None => "undefined"
                   end
       /\ ((forall j, (j < attempts)%nat ->
                      exists e, outcome (fn (calls w + j)%nat) = Throw e) ->
           msg = orString (timeoutMessage options)
                   ("pollUntil: condition not met after "
                    ++ decimal (effectiveMaxWait options) ++ "ms ("
                    ++ decimal (Z.of_nat attempts) ++ " attempts)")
                 ++ newline ++ "Last result: undefined"))
  /\ ((Z.to_nat (effectiveMaxWait options) < fuel)%nat ->
      (forall k, succeeds condition (fn k) = false) ->
      exists msg, fst (pollUntil rt fuel fn condition options w) = Rejected msg).
Proof.
  rewrite !pollUntil_eq.
  destruct (pollLoop_run rt fn condition options fuel (now w) JUndefined 0%nat w)
    as (n & k & Hcalls & _ & Hmiss & Hres).
  split.
  - intros msg Hwait Hsafe Hrej. rewrite Hrej in Hres.
    destruct Hres as (_ & _ & Hmsg).
    exists n. split; [exact Hcalls|]. split.
    { destruct (pollLoop_calls_bound rt fn condition options fuel w)
        as (n' & Hc' & Hbound).
      assert (n' = n) by lia. subst n'.
      unfold safeInteger in *. apply Z.leb_le in Hwait. apply Z.leb_le. lia. }
    split; [apply lastSeen_safe; [exact Hsafe|reflexivity]|].
    split; [exact Hmsg|].
    intros Hfail. rewrite Hmsg. unfold timeoutText.
    rewrite (lastSeen_all_fail fn n (calls w) JUndefined Hfail). reflexivity.
  - intros Hfuel Hnever.
    pose proof (pollLoop_terminates rt fn condition options fuel (now w)
                  JUndefined 0%nat w) as Hterm.
    destruct (fst (pollLoop rt fuel fn condition options (now w) JUndefined 0 w))
      as [r|msg|].
    + destruct Hres as (_ & Hout & Hcond).
      specialize (Hnever (calls w + k)%nat). unfold succeeds in Hnever.
      rewrite Hout, Hcond in Hnever. discriminate.
    + exists msg. reflexivity.
    + exfalso. apply Hterm; [|reflexivity].
      replace (now w - now w) with 0 by lia. rewrite Z.sub_0_r. exact Hfuel.
Qed.

(** ** retry *)

(** One iteration of the [for] loop. *)
Lemma retryLoop_unfold rt fn options fuel attempt lastError w :
  retryLoop rt (S fuel) fn options attempt lastError w
  = if attempt <=? effectiveMaxAttempts options then
      match outcome (fn (calls w)) with
      | Value v => (Resolved v, called fn w)
      | Throw msg =>
          if attempt =? effectiveMaxAttempts options then
            (Rejected (exhaustedText options (Some msg)), called fn w)
          else
            retryLoop rt fuel fn options (attempt + 1) (Some msg)
              (slept rt (backoffDelay options attempt)
                 (logged (retryLine attempt (backoffDelay options attempt))
                    (called fn w)))
      end
    else (Rejected (exhaustedText options lastError), w).
Proof.
  cbn [retryLoop].
  destruct (attempt <=? effectiveMaxAttempts options); [|reflexivity].
  unfold bind at 1, settle, awaitCall.
  destruct (outcome (fn (calls w))) as [v|msg]; [reflexivity|].
  destruct (attempt =? effectiveMaxAttempts options); reflexivity.
Qed.

Lemma retryLoop_run rt fn options fuel :
  forall attempt lastError w,
    (Z.to_nat (effectiveMaxAttempts options - attempt + 1) < fuel)%nat ->
    exists n k,
      retryShape fn options attempt lastError w
        (fst (retryLoop rt fuel fn options attempt lastError w))
        (snd (retryLoop rt fuel fn options attempt lastError w)) n k.
Proof.
  induction fuel as [|fuel IH]; intros attempt lastError w Hfuel; [lia|].
  rewrite retryLoop_unfold.
  destruct (Z.leb_spec attempt (effectiveMaxAttempts options)) as [Hle|Hgt].
  - destruct (outcome (fn (calls w))) as [v|msg] eqn:Hout.
    + exists 1%nat, 0%nat. unfold retryShape; cbn.
      rewrite Nat.add_0_r, app_nil_r.
      repeat split; try assumption; try (intros; lia).
    + destruct (Z.eqb_spec attempt (effectiveMaxAttempts options)) as [Heq|Hne].
      * exists 1%nat, 0%nat. unfold retryShape; cbn.
        rewrite Nat.add_0_r, app_nil_r.
        repeat split; try (intros; lia).
        right. split; [reflexivity|]. exists msg. split; [exact Hout|reflexivity].
      * set (w1 := slept rt (backoffDelay options attempt)
                     (logged (retryLine attempt (backoffDelay options attempt))
                        (called fn w))).
        destruct (IH (attempt + 1) (Some msg) w1) as (n & k & Hc & Hs & Hfail & Hbound & Hres);
          [lia|].
        exists (S n), (S k). unfold retryShape.
        rewrite Hc, Hs. subst w1. cbn [calls sleeps slept logged called] in *.
        split; [lia|]. split; [rewrite <- app_assoc; reflexivity|].
        split.
        { intros [|j] Hj.
          - rewrite Nat.add_0_r. exists msg. exact Hout.
          - replace (calls w + S j)%nat with (S (calls w) + j)%nat by lia.
            apply Hfail. lia. }
        split; [lia|].
        destruct (fst (retryLoop rt fuel fn options (attempt + 1) (Some msg) _))
          as [v|m|].
        -- destruct Hres as [Hn Hv].
           replace (calls w + S k)%nat with (S (calls w) + k)%nat by lia.
           split; [lia|exact Hv].
        -- destruct Hres as [Hn [(Hn0 & _)|(HnS & e & He & Hm)]]; [lia|].
           split; [lia|]. right. split; [lia|]. exists e.
           replace (calls w + S k)%nat with (S (calls w) + k)%nat by lia.
           split; assumption.
        -- exact Hres.
  - exists 0%nat, 0%nat. unfold retryShape; cbn.
    rewrite Nat.add_0_r, app_nil_r.
    repeat split; try (intros; lia).
    left. repeat split.
Qed.

Lemma retry_run rt fn options w :
  exists n k,
    retryShape fn options 1 None w
      (fst (retry rt fn options w)) (snd (retry rt fn options w)) n k.
Proof.
  unfold retry. apply retryLoop_run. lia.
Qed.

Lemma nth_error_attemptsFrom k :
  forall a i, (i < k)%nat -> nth_error (attemptsFrom a k) i = Some (a + Z.of_nat i).
Proof.
  induction k as [|k IH]; intros a i Hi; [lia|].
  destruct i as [|i]; cbn [attemptsFrom nth_error].
  - f_equal. lia.
  - rewrite IH by lia. f_equal. lia.
Qed.

(** The clock of a finished run of the [for] loop: the [k] attempts that
    were followed by a timer, and the call that ended the run. *)
Lemma retryLoop_clock rt fn options fuel :
  forall attempt lastError w,
    (Z.to_nat (effectiveMaxAttempts options - attempt + 1) < fuel)%nat ->
    exists k : nat,
      sleeps (snd (retryLoop rt fuel fn options attempt lastError w))
      = (sleeps w ++ map (backoffDelay options) (attemptsFrom attempt k))%list
      /\ (forall a, In a (attemptsFrom attempt k) ->
                    attempt <= a < effectiveMaxAttempts options)
      /\ now (snd (retryLoop rt fuel fn options attempt lastError w))
         = now w
           + elapsedWith rt fn
               (map (fun a => timerDelay (backoffDelay options a))
                    (attemptsFrom attempt k))
               (calls w) (List.length (sleeps w))
           + (if attempt <=? effectiveMaxAttempts options
              then Z.of_N (latency (fn (calls w + k)%nat)) else 0).
Proof.
  induction fuel as [|fuel IH]; intros attempt lastError w Hfuel; [lia|].
  rewrite retryLoop_unfold.
  destruct (Z.leb_spec attempt (effectiveMaxAttempts options)) as [Hle|Hgt].
  - destruct (outcome (fn (calls w))) as [v|msg] eqn:Hout.
    + exists 0%nat. cbn. rewrite Nat.add_0_r, app_nil_r.
      repeat split; try (intros; contradiction); lia.
    + destruct (Z.eqb_spec attempt (effectiveMaxAttempts options)) as [Heq|Hne].
      * exists 0%nat. cbn. rewrite Nat.add_0_r, app_nil_r.
        repeat split; try (intros; contradiction); lia.
      * set (w1 := slept rt (backoffDelay options attempt)
                     (logged (retryLine attempt (backoffDelay options attempt))
                        (called fn w))).
        destruct (IH (attempt + 1) (Some msg) w1) as (k & Hs & Hin & Hnow); [lia|].
        exists (S k). rewrite Hs, Hnow.
        destruct (Z.leb_spec (attempt + 1) (effectiveMaxAttempts options)); [|lia].
        subst w1. cbn [now calls sleeps slept logged called attemptsFrom map
                       elapsedWith].
        rewrite length_app. cbn [List.length].
        replace (List.length (sleeps w) + 1)%nat
          with (S (List.length (sleeps w))) by lia.
        replace (S (calls w) + k)%nat with (calls w + S k)%nat by lia.
        split; [rewrite <- app_assoc; reflexivity|]. split; [|lia].
        intros a [Ha|Ha]; [lia|]. specialize (Hin a Ha). lia.
  - exists 0%nat. cbn. rewrite app_nil_r.
    repeat split; try (intros; contradiction); lia.
Qed.



(** ** Defaults *)

(** The loop reads its options through their effective values only. *)
Lemma pollLoop_ext rt fn condition o1 o2 fuel :
  effectiveMaxWait o1 = effectiveMaxWait o2 ->
  effectivePollInterval o1 = effectivePollInterval o2 ->
  timeoutMessage o1 = timeoutMessage o2 ->
  forall start last att w,
    pollLoop rt fuel fn condition o1 start last att w
    = pollLoop rt fuel fn condition o2 start last att w.
Proof.
  intros Hw Hi Hm.
  assert (Htext : forall att last, timeoutText o1 att last = timeoutText o2 att last).
  { intros att last. unfold timeoutText. rewrite Hw, Hm. reflexivity. }
  induction fuel as [|fuel IH]; intros start last att w; [reflexivity|].
  rewrite !pollLoop_unfold, Hw, Hi.
  destruct (now w - start <? effectiveMaxWait o2); [|rewrite Htext; reflexivity].
  destruct (outcome (fn (calls w))) as [v|msg]; [|apply IH].
  destruct (condition v) as [[|]|msg]; [reflexivity|apply IH|apply IH].
Qed.




(** ** The domain wait wrappers *)

Lemma pollUntil_first_match rt fuel fn condition options w :
  resolvesWithFirstMatch rt fuel fn condition options w
    (fst (pollUntil rt fuel fn condition options w)).
Proof.
  split.
  - intros N r Hfuel (Hmiss & Hout & Hcond & Htime). rewrite pollUntil_eq.
    destruct (pollLoop_first_success rt fn condition options N fuel (now w)
                JUndefined 0%nat w r) as (w' & Hrun & _); try assumption.
    + lia.
    + rewrite Hrun. reflexivity.
  - intros r Hres. rewrite pollUntil_eq in Hres.
    destruct (pollLoop_run rt fn condition options fuel (now w) JUndefined 0%nat w)
      as (n & k & _ & _ & Hmiss & Hshape).
    rewrite Hres in Hshape. destruct Hshape as (_ & Hout & Hcond).
    exists k. repeat split; assumption.
Qed.

Lemma statusUnder_one key fields :
  statusUnder [key] fields = lookupField key fields.
Proof. reflexivity. Qed.

Lemma statusUnder_two first second fields :
  statusUnder [first; second] fields
  = if truthy (lookupField first fields) then lookupField first fields
    else lookupField second fields.
Proof. reflexivity. Qed.

(** C7 (the table of the wrappers).  On an object result each wrapper's
    predicate is true exactly on the terminal states of its row, read
    under its status keys, and the wrapper called without [maxWait] is the
    poll loop run with the [maxWait] and [pollInterval] of its row.  The
    blockchain row also accepts, whatever the status, a result whose
    confirmations reach the threshold, which is 1 when not given; the
    confirmations of a result are the number its [confirmations] field
    converts to, and 0 when the field is absent or falsy: the count itself
    for a numeric field, the number a non-empty text reads as, and no
    number that reaches any threshold when the conversion gives [NaN]. *)
Theorem wrappers_follow_table rt fuel w :
  ((forall fields,
      bankAccountVerified (JObj fields)
      = Value (oneOf ["verified"; "approved"]
                     (statusUnder ["verificationState"; "status"] fields)))
   /\ forall client id,
        waitForBankAccountVerification rt fuel client id None w
        = (pollUntil rt fuel (getBankAccount client id) bankAccountVerified
             {| maxWait := Some 120000; pollInterval := Some 5000;
                timeoutMessage :=
                  Some ("Bank account " ++ id ++ " not verified after 120000ms") |} ;;
           ret JUndefined) w)
  /\ ((forall fields,
         achDebitCompleted (JObj fields)
         = Value (oneOf ["completed"; "settled"; "done"]
                        (statusUnder ["status"] fields)))
      /\ forall fn,
           waitForAchDebitCompletion rt fuel fn None w
           = pollUntil rt fuel fn achDebitCompleted
               {| maxWait := Some 300000; pollInterval := Some 10000;
                  timeoutMessage := Some "ACH debit not completed in time" |} w)
  /\ ((forall fields,
         orderFilled (JObj fields)
         = Value (oneOf ["filled"; "done"; "settled"]
                        (statusUnder ["status"] fields)))
      /\ forall fn,
           waitForOrderFill rt fuel fn None w
           = pollUntil rt fuel fn orderFilled
               {| maxWait := Some 60000; pollInterval := Some 2000;
                  timeoutMessage := Some "Order not filled in time" |} w)
  /\ (((forall threshold fields,
          transactionConfirmed rt threshold (JObj fields)
          = Value (oneOf ["confirmed"; "complete"] (statusUnder ["status"] fields)
                   || numGe (toNumber rt
                               (if truthy (lookupField "confirmations" fields)
                                then lookupField "confirmations" fields
                                else JNum (JInt 0)))
                            threshold))
       /\ (forall threshold fields count,
             lookupField "confirmations" fields = JNum (JInt count) ->
             transactionConfirmed rt threshold (JObj fields)
             = Value (oneOf ["confirmed"; "complete"]
                            (statusUnder ["status"] fields)
                      || (threshold <=? count)))
       /\ (forall threshold fields,
             truthy (lookupField "confirmations" fields) = false ->
             transactionConfirmed rt threshold (JObj fields)
             = Value (oneOf ["confirmed"; "complete"]
                            (statusUnder ["status"] fields)
                      || (threshold <=? 0)))
       /\ (forall threshold fields text,
             lookupField "confirmations" fields = JStr text ->
             text <> EmptyString ->
             transactionConfirmed rt threshold (JObj fields)
             = Value (oneOf ["confirmed"; "complete"]
                            (statusUnder ["status"] fields)
                      || match StringToNumber rt text with
                         | JInt count => threshold <=? count
                         | JNaN => false
                         end)))
      /\ forall fn,
           waitForTransactionConfirmation rt fuel fn None None w
           = pollUntil rt fuel fn (transactionConfirmed rt 1)
               {| maxWait := Some 600000; pollInterval := Some 15000;
                  timeoutMessage :=
                    Some "Transaction not confirmed after 600000ms" |} w)
  /\ ((forall fields,
         lightningInvoicePaid (JObj fields)
         = Value (oneOf ["paid"; "settled"; "completed"]
                        (statusUnder ["status"] fields)))
      /\ forall fn,
           waitForLightningInvoicePaid rt fuel fn None w
           = pollUntil rt fuel fn lightningInvoicePaid
               {| maxWait := Some 120000; pollInterval := Some 3000;
                  timeoutMessage := Some "Lightning invoice not paid in time" |} w)
  /\ ((forall fields,
         kycApproved (JObj fields)
         = Value (oneOf ["approved"; "verified"; "complete"]
                        (statusUnder ["status"; "verificationStatus"] fields)))
      /\ forall fn,
           waitForKycApproval rt fuel fn None w
           = pollUntil rt fuel fn kycApproved
               {| maxWait := Some 300000; pollInterval := Some 10000;
                  timeoutMessage := Some "KYC identity not approved in time" |} w).
Proof.
  assert (Hconfirmed : forall threshold fields,
            transactionConfirmed rt threshold (JObj fields)
            = Value (oneOf ["confirmed"; "complete"] (statusUnder ["status"] fields)
                     || numGe (toNumber rt
                                 (if truthy (lookupField "confirmations" fields)
                                  then lookupField "confirmations" fields
                                  else JNum (JInt 0)))
                              threshold)).
  { intros threshold fields. unfold transactionConfirmed.
    cbn [getProp andThen oneOf existsb]. rewrite statusUnder_one, orb_false_r.
    reflexivity. }
  repeat match goal with |- _ /\ _ => split end; try reflexivity.
  - intros fields. unfold bankAccountVerified. cbn [getProp andThen].
    rewrite statusUnder_two.
    destruct (truthy (lookupField "verificationState" fields));
      cbn [andThen oneOf existsb]; rewrite orb_false_r; reflexivity.
  - intros fields. unfold achDebitCompleted. cbn [getProp andThen oneOf existsb].
    rewrite statusUnder_one, orb_false_r, orb_assoc. reflexivity.
  - intros fields. unfold orderFilled. cbn [getProp andThen oneOf existsb].
    rewrite statusUnder_one, orb_false_r, orb_assoc. reflexivity.
  - exact Hconfirmed.
  - intros threshold fields count Hcount. rewrite Hconfirmed, Hcount.
    cbn [truthy]. destruct (Z.eqb_spec count 0) as [->|Hne]; reflexivity.
  - intros threshold fields Hfalsy. rewrite Hconfirmed, Hfalsy. reflexivity.
  - intros threshold fields text Htext Hne. rewrite Hconfirmed, Htext.
    cbn [truthy]. destruct (String.eqb_spec text EmptyString) as [->|_];
      [contradiction|reflexivity].
  - intros fields. unfold lightningInvoicePaid. cbn [getProp andThen oneOf existsb].
    rewrite statusUnder_one, orb_false_r, orb_assoc. reflexivity.
  - intros fields. unfold kycApproved. cbn [getProp andThen].
    rewrite statusUnder_two.
    destruct (truthy (lookupField "status" fields));
      cbn [andThen oneOf existsb]; rewrite orb_false_r, orb_assoc; reflexivity.
Qed.

(** C8, amended.  The five wrappers that return the result of the poll
    (ACH debit, order fill, transaction confirmation, Lightning invoice,
    KYC) resolve with the first observed result that satisfied their
    predicate.  [waitForBankAccountVerification], declared
    [Promise<void>], waits for that same first result and resolves with
    [undefined]. *)
Theorem wrappers_resolve_with_first_match rt fuel w wait :
  (forall fn,
     resolvesWithFirstMatch rt fuel fn achDebitCompleted
       (achDebitOptions (defaultArg wait 300000)) w
       (fst (waitForAchDebitCompletion rt fuel fn wait w)))
  /\ (forall fn,
        resolvesWithFirstMatch rt fuel fn orderFilled
          (orderFillOptions (defaultArg wait 60000)) w
          (fst (waitForOrderFill rt fuel fn wait w)))
  /\ (forall fn threshold,
        resolvesWithFirstMatch rt fuel fn
          (transactionConfirmed rt (defaultArg threshold 1))
          (transactionOptions (defaultArg wait 600000)) w
          (fst (waitForTransactionConfirmation rt fuel fn threshold wait w)))
  /\ (forall fn,
        resolvesWithFirstMatch rt fuel fn lightningInvoicePaid
          (lightningOptions (defaultArg wait 120000)) w
          (fst (waitForLightningInvoicePaid rt fuel fn wait w)))
  /\ (forall fn,
        resolvesWithFirstMatch rt fuel fn kycApproved
          (kycOptions (defaultArg wait 300000)) w
          (fst (waitForKycApproval rt fuel fn wait w)))
  /\ (forall client id N r,
        (N < fuel)%nat ->
        firstSatisfiedAt rt (getBankAccount client id) bankAccountVerified
          (bankAccountOptions id (defaultArg wait 120000)) w N r ->
        fst (waitForBankAccountVerification rt fuel client id wait w)
        = Resolved JUndefined
        /\ calls (snd (waitForBankAccountVerification rt fuel client id wait w))
           = (calls w + N + 1)%nat).
Proof.
  repeat match goal with |- _ /\ _ => split end;
    try (intros; apply pollUntil_first_match).
  intros client id N r Hfuel (Hmiss & Hout & Hcond & Htime).
  unfold waitForBankAccountVerification, bind. rewrite pollUntil_eq.
  destruct (pollLoop_first_success rt (getBankAccount client id)
              bankAccountVerified
              (bankAccountOptions id (defaultArg wait 120000)) N fuel (now w)
              JUndefined 0%nat w r) as (w' & Hrun & Hc & _); try assumption.
  - lia.
  - rewrite Hrun. cbn. split; [reflexivity|lia].
Qed.



(** ** The claims at concrete inputs *)

(** C1 as stated does not hold: the predicate throws on the result of every
    call, yet the poll does not reject with that exception; it goes on for
    three attempts and rejects with the timeout error. *)
Lemma predicate_error_is_not_propagated :
  outcome (always (Value pendingResult) 0%nat) = Value pendingResult
  /\ throwingPredicate pendingResult = Throw "boom"
  /\ fst (pollUntil promptRuntime 10 (always (Value pendingResult))
            throwingPredicate threeSeconds (initWorld 0)) <> Rejected "boom"
  /\ calls (snd (pollUntil promptRuntime 10 (always (Value pendingResult))
                   throwingPredicate threeSeconds (initWorld 0))) = 3%nat
  /\ sleeps (snd (pollUntil promptRuntime 10 (always (Value pendingResult))
                    throwingPredicate threeSeconds (initWorld 0)))
     = [1000; 1000; 1000].
Proof.
  split; [reflexivity|]. split; [reflexivity|].
  split; [intros H; vm_compute in H; discriminate H|].
  split; vm_compute; reflexivity.
Qed.

(** C2 as stated does not hold: with [maxWait = 500] and
    [pollInterval = 1000] the accessor is called once, not zero times. *)
Lemma short_window_still_calls_accessor :
  0 < effectivePollInterval shortWindow
  /\ 0 < effectiveMaxWait shortWindow < effectivePollInterval shortWindow
  /\ calls (snd (pollUntil promptRuntime 10 (always (Value pendingResult))
                   neverTrue shortWindow (initWorld 0))) = 1%nat
  /\ calls (snd (pollUntil promptRuntime 10 (always (Value pendingResult))
                   neverTrue shortWindow (initWorld 0))) <> 0%nat.
Proof.
  split; [reflexivity|]. split; [split; reflexivity|].
  split; [vm_compute; reflexivity|].
  intros H; vm_compute in H; discriminate H.
Qed.

(** C3 as stated does not hold: every attempt fails and a custom timeout
    message is given; the message of the error then ends in
    [Last result: undefined], and contains neither the words
    [no successful result], nor the bound 3000, nor the count of 3
    attempts. *)
Lemma timeout_message_lacks_counts_and_marker :
  fst (pollUntil promptRuntime 10 (always (Throw "not found")) neverTrue
         threeSeconds (initWorld 0))
  = Rejected ("still pending" ++ newline ++ "Last result: undefined")
  /\ calls (snd (pollUntil promptRuntime 10 (always (Throw "not found")) neverTrue
                   threeSeconds (initWorld 0))) = 3%nat
  /\ includes ("still pending" ++ newline ++ "Last result: undefined")
              "no successful result" = false
  /\ includes ("still pending" ++ newline ++ "Last result: undefined")
              "3" = false.
Proof. repeat split; vm_compute; reflexivity. Qed.

(** The deadline scenario of the specification: the last result
    [{status: "pending"}] and the custom message are both in the text. *)
Example timeout_message_shows_last_result :
  exists msg,
    fst (pollUntil promptRuntime 10 (always (Value pendingResult)) neverTrue
           threeSeconds (initWorld 0)) = Rejected msg
    /\ includes msg (dquote ++ "pending" ++ dquote) = true
    /\ includes msg "still pending" = true.
Proof. eexists. repeat split; vm_compute; reflexivity. Qed.


(** C8 as stated does not hold for [waitForBankAccountVerification]: the
    first result satisfies the predicate and the wrapper resolves with
    [undefined], not with that result. *)
Lemma bank_wrapper_resolves_with_undefined :
  outcome (getBankAccount verifiedClient "ba_1" 0%nat) = Value verifiedAccount
  /\ bankAccountVerified verifiedAccount = Value true
  /\ fst (waitForBankAccountVerification promptRuntime 10 verifiedClient "ba_1"
            None (initWorld 0)) = Resolved JUndefined
  /\ fst (waitForBankAccountVerification promptRuntime 10 verifiedClient "ba_1"
            None (initWorld 0)) <> Resolved verifiedAccount.
Proof.
  split; [reflexivity|]. split; [reflexivity|].
  split; [vm_compute; reflexivity|].
  intros H; vm_compute in H; discriminate H.
Qed.


(** *** Instances *)

Lemma pollUntil_predicate_errors_suppressed_witness :
  fst (pollUntil promptRuntime 10 (always (Value pendingResult))
         throwingPredicate threeSeconds (initWorld 0))
  = fst (pollUntil promptRuntime 10 (always (Value pendingResult))
           (quiet throwingPredicate) threeSeconds (initWorld 0)).
Proof.
  exact (proj1 (proj2 (pollUntil_predicate_errors_suppressed promptRuntime 10
                         (always (Value pendingResult)) throwingPredicate
                         threeSeconds (initWorld 0)))).
Defined.

Lemma pollUntil_short_window_polls_once_witness :
  calls (snd (pollUntil promptRuntime 10 (always (Value pendingResult))
                neverTrue shortWindow (initWorld 0))) = 1%nat.
Proof.
  apply (pollUntil_short_window_polls_once promptRuntime 10
           (always (Value pendingResult)) neverTrue shortWindow (initWorld 0)).
  - lia.
  - split; reflexivity.
  - discriminate.
Defined.

Lemma pollUntil_timeout_message_witness :
  exists msg,
    fst (pollUntil promptRuntime 3001 (always (Value pendingResult)) neverTrue
           threeSeconds (initWorld 0)) = Rejected msg.
Proof.
  apply (pollUntil_timeout_message promptRuntime 3001
           (always (Value pendingResult)) neverTrue threeSeconds (initWorld 0)).
  - cbn. lia.
  - intros k. reflexivity.
Defined.

Lemma pollUntil_tolerates_accessor_failures_witness :
  fst (pollUntil promptRuntime 5
         (scripted [Throw "not found"; Throw "not found"; Value filledOrder])
         orderFilled noOptions (initWorld 0)) = Resolved filledOrder.
Proof.
  apply (pollUntil_tolerates_accessor_failures promptRuntime 5
           (scripted [Throw "not found"; Throw "not found"; Value filledOrder])
           orderFilled noOptions (initWorld 0) 2 filledOrder).
  - lia.
  - intros [|[|j]] Hj; [exists "not found"; reflexivity
                       |exists "not found"; reflexivity|lia].
  - reflexivity.
  - reflexivity.
  - reflexivity.
Defined.

Lemma pollUntil_immediate_success_witness :
  pollUntil promptRuntime 1 (always (Value filledOrder)) orderFilled noOptions
            (initWorld 0)
  = (Resolved filledOrder, called (always (Value filledOrder)) (initWorld 0)).
Proof.
  apply (pollUntil_immediate_success promptRuntime 1 (always (Value filledOrder))
           orderFilled noOptions (initWorld 0) filledOrder).
  - lia.
  - reflexivity.
  - reflexivity.
  - reflexivity.
Defined.


Lemma wrappers_follow_table_witness :
  transactionConfirmed promptRuntime 1
    (JObj [("status", JStr "pending"); ("confirmations", JNum (JInt 1))])
  = Value true.
Proof.
  apply (proj1 (proj2 (proj1 (proj1 (proj2 (proj2 (proj2
           (wrappers_follow_table promptRuntime 0 (initWorld 0))))))))
           1 [("status", JStr "pending"); ("confirmations", JNum (JInt 1))] 1).
  reflexivity.
Defined.

(** The order-fill scenario of the specification: two open orders, then
    the filled one, polled every 2 s with [maxWait = 10000]. *)
Lemma wrappers_resolve_with_first_match_witness :
  fst (waitForOrderFill promptRuntime 100 (scripted orderScript) (Some 10000)
         (initWorld 0)) = Resolved filledOrder.
Proof.
  apply (proj1 (proj1 (proj2
           (wrappers_resolve_with_first_match promptRuntime 100 (initWorld 0)
              (Some 10000))) (scripted orderScript)) 2%nat filledOrder).
  - lia.
  - split; [|split; [|split]].
    + intros [|[|j]] Hj; [reflexivity|reflexivity|lia].
    + reflexivity.
    + reflexivity.
    + reflexivity.
Defined.



(** * Further properties of the poll loop *)

Lemma elapsedAt_last rt fn interval n :
  forall c s,
    elapsedAt rt fn interval c s (S n)
    = elapsedAt rt fn interval c s n
      + Z.of_N (latency (fn (c + n)%nat)) + timerDelay interval
      + Z.of_N (timerLag rt (s + n)%nat).
Proof.
  induction n as [|n IH]; intros c s.
  - cbn [elapsedAt]. rewrite !Nat.add_0_r. lia.
  - change (elapsedAt rt fn interval c s (S (S n)))
      with (Z.of_N (latency (fn c)) + timerDelay interval + Z.of_N (timerLag rt s)
            + elapsedAt rt fn interval (S c) (S s) (S n)).
    rewrite IH. cbn [elapsedAt].
    replace (S c + n)%nat with (c + S n)%nat by lia.
    replace (S s + n)%nat with (s + S n)%nat by lia. lia.
Qed.

(** With a positive deadline the first attempt is always made. *)
Lemma pollUntil_first_call rt fuel fn condition options w :
  (0 < fuel)%nat ->
  0 < effectiveMaxWait options ->
  (S (calls w) <= calls (snd (pollUntil rt fuel fn condition options w)))%nat.
Proof.
  intros Hfuel Hwait. rewrite pollUntil_eq.
  destruct fuel as [|fuel]; [lia|].
  destruct (succeeds condition (fn (calls w))) eqn:Hs.
  - destruct (succeeds_true _ _ Hs) as (r & Hout & Hcond).
    rewrite (pollLoop_hit rt fn condition options fuel (now w) JUndefined 0%nat w r)
      by (assumption || lia).
    cbn. lia.
  - destruct (pollLoop_miss rt fn condition options fuel (now w) JUndefined 0%nat w)
      as (w1 & Heq & _ & Hcalls & _); [lia|exact Hs|].
    rewrite Heq.
    destruct (pollLoop_run rt fn condition options fuel (now w)
                (lastSeen fn (calls w) 1 JUndefined) 1%nat w1)
      as (n & k & Hc & _).
    rewrite Hc, Hcalls. lia.
Qed.

(** A poll whose predicate is never satisfied ends by the deadline. *)
Lemma pollUntil_never_satisfied rt fuel fn condition options w :
  (Z.to_nat (effectiveMaxWait options) < fuel)%nat ->
  (forall c, succeeds condition (fn c) = false) ->
  exists msg, fst (pollUntil rt fuel fn condition options w) = Rejected msg.
Proof.
  intros Hfuel Hnever. rewrite pollUntil_eq.
  destruct (pollLoop_run rt fn condition options fuel (now w) JUndefined 0%nat w)
    as (n & k & _ & _ & _ & Hres).
  pose proof (pollLoop_terminates rt fn condition options fuel (now w)
                JUndefined 0%nat w) as Hterm.
  destruct (fst (pollLoop rt fuel fn condition options (now w) JUndefined 0 w))
    as [r|msg|].
  - destruct Hres as (_ & Hout & Hcond).
    specialize (Hnever (calls w + k)%nat). unfold succeeds in Hnever.
    rewrite Hout, Hcond in Hnever. discriminate.
  - exists msg. reflexivity.
  - exfalso. apply Hterm; [|reflexivity].
    replace (now w - now w) with 0 by lia. rewrite Z.sub_0_r. exact Hfuel.
Qed.

(** X1.  Whatever the accessor does, [n] calls of it by [pollUntil]
    satisfy [n * d < max(0, maxWait) + d], where [d] is the delay its
    timers run for: with a poll interval a timer can take (1 to 2^31 - 1
    ms) that is at most [ceil(maxWait / pollInterval)] calls, and with any
    other poll interval, whose timers run for 1 ms, at most [maxWait]
    calls. *)
Theorem pollUntil_call_bound rt fuel fn condition options w :
  Z.of_nat (calls (snd (pollUntil rt fuel fn condition options w)) - calls w)
  * timerDelay (effectivePollInterval options)
  < Z.max 0 (effectiveMaxWait options) + timerDelay (effectivePollInterval options)
  /\ (1 <= effectivePollInterval options <= TIMEOUT_MAX ->
      Z.of_nat (calls (snd (pollUntil rt fuel fn condition options w)) - calls w)
      * effectivePollInterval options
      < Z.max 0 (effectiveMaxWait options) + effectivePollInterval options).
Proof.
  assert (Hgen : Z.of_nat (calls (snd (pollUntil rt fuel fn condition options w))
                           - calls w)
                 * timerDelay (effectivePollInterval options)
                 < Z.max 0 (effectiveMaxWait options)
                   + timerDelay (effectivePollInterval options)).
  { rewrite pollUntil_eq.
    destruct (pollLoop_clock rt fn condition options fuel (now w) JUndefined
                0%nat w) as (n & k & Hc & _ & Hintime & _).
    rewrite Hc. replace (calls w + n - calls w)%nat with n by lia.
    pose proof (timerDelay_positive (effectivePollInterval options)) as Htimer.
    destruct n as [|n]; [lia|].
    specialize (Hintime n ltac:(lia)).
    pose proof (elapsedAt_lower rt fn (effectivePollInterval options) n (calls w)
                  (List.length (sleeps w))) as Hlow.
    rewrite Nat2Z.inj_succ. nia. }
  split; [exact Hgen|].
  intros Hrange. rewrite timerDelay_in_range in Hgen by exact Hrange. exact Hgen.
Qed.

(** X2.  With an accessor that answers at once, timers without lag, a
    poll interval a timer can take (1 to 2^31 - 1 ms) and a predicate that
    is never satisfied, [pollUntil] makes exactly
    [ceil(maxWait / pollInterval)] attempts and rejects when that many
    poll intervals have elapsed, which is less than one interval after
    [maxWait]. *)
Theorem pollUntil_prompt_attempts rt fuel fn condition options w :
  1 <= effectivePollInterval options <= TIMEOUT_MAX ->
  0 < effectiveMaxWait options ->
  (Z.to_nat (effectiveMaxWait options) < fuel)%nat ->
  (forall c, latency (fn c) = 0%N) ->
  (forall s, timerLag rt s = 0%N) ->
  (forall c, succeeds condition (fn c) = false) ->
  (exists msg, fst (pollUntil rt fuel fn condition options w) = Rejected msg)
  /\ Z.of_nat (calls (snd (pollUntil rt fuel fn condition options w)) - calls w)
     = (effectiveMaxWait options + effectivePollInterval options - 1)
       / effectivePollInterval options
  /\ now (snd (pollUntil rt fuel fn condition options w))
     = now w
       + (effectiveMaxWait options + effectivePollInterval options - 1)
         / effectivePollInterval options * effectivePollInterval options
  /\ now (snd (pollUntil rt fuel fn condition options w)) - now w
     < effectiveMaxWait options + effectivePollInterval options.
Proof.
  intros Hrange Hwait Hfuel Hlat Hlag Hnever.
  assert (Hpos : 0 < effectivePollInterval options) by lia.
  destruct (pollUntil_never_satisfied rt fuel fn condition options w Hfuel
              Hnever) as [msg Hrej].
  split; [exists msg; exact Hrej|].
  rewrite pollUntil_eq in *.
  destruct (pollLoop_clock rt fn condition options fuel (now w) JUndefined 0%nat w)
    as (n & k & Hc & _ & Hintime & Hres).
  rewrite Hrej in Hres. destruct Hres as (Hnk & Hclock & Hlim). subst k.
  rewrite (elapsedAt_prompt rt fn _ n Hlat Hlag) in Hclock.
  rewrite timerDelay_in_range in Hclock by exact Hrange.
  assert (Hceil : Z.of_nat n
                  = (effectiveMaxWait options + effectivePollInterval options - 1)
                    / effectivePollInterval options).
  { destruct n as [|n]; [lia|].
    specialize (Hintime n ltac:(lia)).
    rewrite (elapsedAt_prompt rt fn _ n Hlat Hlag) in Hintime.
    rewrite timerDelay_in_range in Hintime by exact Hrange.
    rewrite Nat2Z.inj_succ in *.
    apply Z.div_unique
      with (r := effectiveMaxWait options + effectivePollInterval options - 1
                 - effectivePollInterval options * Z.succ (Z.of_nat n)); nia. }
  rewrite Hc. replace (calls w + n - calls w)%nat with n by lia.
  rewrite <- Hceil. split; [reflexivity|]. split; [lia|].
  destruct n as [|n]; [lia|].
  specialize (Hintime n ltac:(lia)).
  rewrite (elapsedAt_prompt rt fn _ n Hlat Hlag) in Hintime.
  rewrite timerDelay_in_range in Hintime by exact Hrange.
  rewrite Nat2Z.inj_succ in *. nia.
Qed.

(** X3.  A poll that times out after [n+1] attempts overruns [maxWait]
    by less than the cost of its last attempt: the latency of the last
    call, the delay of the last timer (the poll interval, when it is a
    delay a timer can take) and the lag of that timer. *)
Theorem pollUntil_deadline_overrun rt fuel fn condition options w msg (n : nat) :
  fst (pollUntil rt fuel fn condition options w) = Rejected msg ->
  calls (snd (pollUntil rt fuel fn condition options w)) = (calls w + S n)%nat ->
  effectiveMaxWait options
  <= now (snd (pollUntil rt fuel fn condition options w)) - now w
  < effectiveMaxWait options
    + Z.of_N (latency (fn (calls w + n)%nat))
    + timerDelay (effectivePollInterval options)
    + Z.of_N (timerLag rt (List.length (sleeps w) + n)%nat).
Proof.
  rewrite pollUntil_eq. intros Hrej Hcalls.
  destruct (pollLoop_clock rt fn condition options fuel (now w) JUndefined 0%nat w)
    as (m & k & Hc & _ & Hintime & Hres).
  rewrite Hrej in Hres. destruct Hres as (Hmk & Hclock & Hlim). subst k.
  assert (m = S n) by lia. subst m.
  specialize (Hintime n ltac:(lia)).
  rewrite elapsedAt_last in Hclock. lia.
Qed.

(** X4.  [pollUntil] makes no attempt exactly when the effective
    [maxWait] is not positive, that is when a negative [maxWait] is
    passed; it then rejects at once with the timeout error of a poll
    without attempt or result (the default message, the digits of a safe
    [maxWait] and [(0 attempts)], when no [timeoutMessage] is given) and
    leaves the world as it was. *)
Theorem pollUntil_no_attempt_iff rt fuel fn condition options w :
  (0 < fuel)%nat ->
  (calls (snd (pollUntil rt fuel fn condition options w)) = calls w
   <-> effectiveMaxWait options <= 0)
  /\ (effectiveMaxWait options <= 0 ->
      safeInteger (effectiveMaxWait options) = true ->
      pollUntil rt fuel fn condition options w
      = (Rejected
           (orString (timeoutMessage options)
              ("pollUntil: condition not met after "
               ++ decimal (effectiveMaxWait options) ++ "ms (0 attempts)")
            ++ newline ++ "Last result: undefined"), w)).
Proof.
  intros Hfuel.
  assert (Hnone : effectiveMaxWait options <= 0 ->
                  pollUntil rt fuel fn condition options w
                  = (Rejected (timeoutText options 0 JUndefined), w)).
  { intros Hle. rewrite pollUntil_eq. destruct fuel as [|fuel]; [lia|].
    apply pollLoop_deadline. lia. }
  split; [split|intros Hle _; exact (Hnone Hle)].
  - intros Hsame.
    destruct (Z.le_gt_cases (effectiveMaxWait options) 0) as [Hle|Hgt]; [exact Hle|].
    pose proof (pollUntil_first_call rt fuel fn condition options w Hfuel
                  ltac:(lia)). lia.
  - intros Hle. rewrite (Hnone Hle). reflexivity.
Qed.

Lemma isPrefix_app p rest : isPrefix p (p ++ rest) = true.
Proof.
  induction p as [|a p IH]; cbn; [reflexivity|].
  rewrite Ascii.eqb_refl, IH. reflexivity.
Qed.

Lemma includes_prefix s sub : isPrefix sub s = true -> includes s sub = true.
Proof. intros H. destruct s; cbn [includes]; rewrite H; reflexivity. Qed.

Lemma orString_given m fallback :
  m <> EmptyString -> orString (Some m) fallback = m.
Proof.
  intros Hm. unfold orString.
  destruct (String.eqb_spec m EmptyString) as [->|_]; [contradiction|reflexivity].
Qed.

(** A rejected poll carries the caller's message in front. *)
Lemma pollUntil_rejection_prefix rt fuel fn condition options w m msg :
  timeoutMessage options = Some m ->
  m <> EmptyString ->
  fst (pollUntil rt fuel fn condition options w) = Rejected msg ->
  isPrefix m msg = true.
Proof.
  intros Hm Hne Hrej. rewrite pollUntil_eq in Hrej.
  destruct (pollLoop_run rt fn condition options fuel (now w) JUndefined 0%nat w)
    as (n & k & _ & _ & _ & Hres).
  rewrite Hrej in Hres. destruct Hres as (_ & _ & ->).
  unfold timeoutText. rewrite Hm, orString_given by exact Hne.
  apply isPrefix_app.
Qed.

(** X5.  When a non-empty [timeoutMessage] is given, every error
    [pollUntil] throws begins with it, so that a caller can recognise the
    timeout by [err.message.includes(timeoutMessage)]. *)
Theorem pollUntil_timeout_names_message rt fuel fn condition options w m msg :
  timeoutMessage options = Some m ->
  m <> EmptyString ->
  fst (pollUntil rt fuel fn condition options w) = Rejected msg ->
  isPrefix m msg = true /\ includes msg m = true.
Proof.
  intros Hm Hne Hrej.
  pose proof (pollUntil_rejection_prefix rt fuel fn condition options w m msg
                Hm Hne Hrej) as Hp.
  split; [exact Hp|apply includes_prefix, Hp].
Qed.

Lemma pollLoop_console rt fn condition options fuel :
  forall start last att w,
    exists n,
      calls (snd (pollLoop rt fuel fn condition options start last att w))
      = (calls w + n)%nat
      /\ console (snd (pollLoop rt fuel fn condition options start last att w))
         = (console w ++ failureLines fn condition (calls w) att n)%list.
Proof.
  induction fuel as [|fuel IH]; intros start last att w.
  - exists 0%nat. cbn. rewrite Nat.add_0_r, app_nil_r. split; reflexivity.
  - rewrite pollLoop_unfold.
    destruct (now w - start <? effectiveMaxWait options).
    + destruct (outcome (fn (calls w))) as [v|msg] eqn:Hout.
      * destruct (condition v) as [[|]|msg] eqn:Hcond.
        -- exists 1%nat. cbn [fst snd calls console called failureLines].
           unfold failureOf. rewrite Hout, Hcond. cbn.
           rewrite app_nil_r. split; [lia|reflexivity].
        -- destruct (IH start v (S att)
                       (slept rt (effectivePollInterval options) (called fn w)))
             as (n & Hc & Hl).
           exists (S n). rewrite Hc, Hl. cbn [calls console slept called failureLines].
           unfold failureOf. rewrite Hout, Hcond. cbn [app].
           split; [lia|reflexivity].
        -- destruct (IH start v (S att)
                       (slept rt (effectivePollInterval options)
                          (logged (attemptFailedLine (S att) msg) (called fn w))))
             as (n & Hc & Hl).
           exists (S n). rewrite Hc, Hl.
           cbn [calls console slept logged called failureLines].
           unfold failureOf. rewrite Hout, Hcond.
           rewrite <- app_assoc. split; [lia|reflexivity].
      * destruct (IH start last (S att)
                     (slept rt (effectivePollInterval options)
                        (logged (attemptFailedLine (S att) msg) (called fn w))))
          as (n & Hc & Hl).
        exists (S n). rewrite Hc, Hl.
        cbn [calls console slept logged called failureLines].
        unfold failureOf. rewrite Hout.
        rewrite <- app_assoc. split; [lia|reflexivity].
    + exists 0%nat. cbn. rewrite Nat.add_0_r, app_nil_r. split; reflexivity.
Qed.

(** X6.  The console receives one line for every attempt whose call or
    predicate threw, in order, numbered by the attempt and carrying the
    message thrown, and nothing for the other attempts. *)
Theorem pollUntil_console rt fuel fn condition options w :
  console (snd (pollUntil rt fuel fn condition options w))
  = (console w
     ++ failureLines fn condition (calls w) 0
          (calls (snd (pollUntil rt fuel fn condition options w)) - calls w))%list.
Proof.
  rewrite pollUntil_eq.
  destruct (pollLoop_console rt fn condition options fuel (now w) JUndefined
              0%nat w) as (n & Hc & Hl).
  rewrite Hc, Hl. replace (calls w + n - calls w)%nat with n by lia. reflexivity.
Qed.

(** * Further properties of retry *)

(** X7.  [retry] returns the value of the first call that fulfils, as
    long as it is among the first [maxAttempts] calls: after [k] failures
    it has made [k+1] calls and slept the first [k] backoff delays, and it
    makes no further call. *)
Theorem retry_returns_first_success rt fn options w (k : nat) v :
  Z.of_nat k < effectiveMaxAttempts options ->
  (forall j, (j < k)%nat -> exists e, outcome (fn (calls w + j)%nat) = Throw e) ->
  outcome (fn (calls w + k)%nat) = Value v ->
  fst (retry rt fn options w) = Resolved v
  /\ calls (snd (retry rt fn options w)) = (calls w + k + 1)%nat
  /\ sleeps (snd (retry rt fn options w))
     = (sleeps w ++ map (backoffDelay options) (attemptsFrom 1 k))%list.
Proof.
  intros Hk Hfail Hok.
  destruct (retry_run rt fn options w) as (n & K & Hc & Hs & HfailK & Hbound & Hres).
  assert (HKk : K = k).
  { destruct (fst (retry rt fn options w)) as [v'|msg|].
    - destruct Hres as [_ Hv'].
      destruct (Nat.lt_trichotomy K k) as [Hlt|[Heq|Hgt]]; [|exact Heq|].
      + destruct (Hfail K Hlt) as [e He]. congruence.
      + destruct (HfailK k Hgt) as [e He]. congruence.
    - destruct Hres as [Hn [(Hn0 & _)|(HnS & e & He & _)]]; [lia|].
      destruct (Nat.lt_trichotomy K k) as [Hlt|[Heq|Hgt]].
      + lia.
      + subst K. congruence.
      + destruct (HfailK k Hgt) as [e' He']. congruence.
    - contradiction. }
  subst K. rewrite Hs.
  destruct (fst (retry rt fn options w)) as [v'|msg|].
  - destruct Hres as [Hn Hv']. rewrite Hc.
    split; [congruence|]. split; [lia|reflexivity].
  - destruct Hres as [Hn [(Hn0 & _)|(HnS & e & He & _)]]; [lia|congruence].
  - contradiction.
Qed.

(** X8.  When the first [maxAttempts] calls all fail, [retry] rejects
    with [Failed after <maxAttempts> attempts: <message of the last
    failure>], having made exactly [maxAttempts] calls and slept between
    them only: there is no sleep after the last failure. *)
Theorem retry_exhaustion rt fn options w (n : nat) last :
  effectiveMaxAttempts options = Z.of_nat (S n) ->
  (forall j, (j <= n)%nat -> exists e, outcome (fn (calls w + j)%nat) = Throw e) ->
  outcome (fn (calls w + n)%nat) = Throw last ->
  fst (retry rt fn options w)
  = Rejected ("Failed after " ++ decimal (Z.of_nat (S n)) ++ " attempts: " ++ last)
  /\ calls (snd (retry rt fn options w)) = (calls w + S n)%nat
  /\ List.length (sleeps (snd (retry rt fn options w)))
     = (List.length (sleeps w) + n)%nat.
Proof.
  intros Hmax Hfail Hlast.
  destruct (retry_run rt fn options w) as (m & K & Hc & Hs & _ & Hbound & Hres).
  rewrite Hs, Hc, length_app, length_map.
  assert (Hlen : forall a k, List.length (attemptsFrom a k) = k).
  { intros a k. revert a. induction k as [|k IH]; intros a; cbn; [|rewrite IH];
      reflexivity. }
  rewrite Hlen.
  destruct (fst (retry rt fn options w)) as [v|msg|].
  - destruct Hres as [Hm Hv]. destruct (Hfail K) as [e He]; [lia|]. congruence.
  - destruct Hres as [Hm [(Hm0 & _)|(HmS & e & He & Hmsg)]]; [lia|].
    assert (K = n) by lia. subst K.
    assert (e = last) by congruence. subst e.
    rewrite Hmsg. unfold exhaustedText. rewrite Hmax.
    split; [reflexivity|]. split; lia.
  - contradiction.
Qed.

Lemma backoffDelay_capped options attempt :
  backoffDelay options attempt <= effectiveMaxDelay options.
Proof. unfold backoffDelay. apply Z.le_min_r. Qed.

Lemma totalDelay_bound cap delays :
  Forall (fun d => d <= cap) delays ->
  totalDelay delays <= Z.of_nat (List.length delays) * cap.
Proof.
  induction 1 as [|d delays Hd _ IH]; cbn [totalDelay fold_right List.length].
  - lia.
  - fold (totalDelay delays). rewrite Nat2Z.inj_succ. lia.
Qed.

(** X9.  Every delay [retry] sleeps is at most [maxDelay], there are at
    most [maxAttempts - 1] of them, and so [retry] never sleeps longer
    than [(maxAttempts - 1) * maxDelay] in total. *)
Theorem retry_delays_capped rt fn options w :
  exists delays,
    sleeps (snd (retry rt fn options w)) = (sleeps w ++ delays)%list
    /\ Forall (fun d => d <= effectiveMaxDelay options) delays
    /\ Z.of_nat (List.length delays) <= Z.max 0 (effectiveMaxAttempts options - 1)
    /\ (0 <= effectiveMaxDelay options ->
        totalDelay delays
        <= Z.max 0 (effectiveMaxAttempts options - 1) * effectiveMaxDelay options).
Proof.
  destruct (retry_run rt fn options w) as (n & K & Hc & Hs & _ & Hbound & Hres).
  exists (map (backoffDelay options) (attemptsFrom 1 K)).
  assert (Hlen : forall a k, List.length (attemptsFrom a k) = k).
  { intros a k. revert a. induction k as [|k IH]; intros a; cbn; [|rewrite IH];
      reflexivity. }
  assert (Hcap : Forall (fun d => d <= effectiveMaxDelay options)
                        (map (backoffDelay options) (attemptsFrom 1 K))).
  { apply Forall_map, Forall_forall. intros a _. apply backoffDelay_capped. }
  assert (HK : Z.of_nat K <= Z.max 0 (effectiveMaxAttempts options - 1)).
  { destruct (fst (retry rt fn options w)) as [v|msg|].
    - destruct Hres as [Hn _]. lia.
    - destruct Hres as [Hn [(_ & HK0 & _)|(HnS & _)]]; lia.
    - contradiction. }
  split; [exact Hs|]. split; [exact Hcap|].
  rewrite length_map, Hlen. split; [exact HK|].
  intros Hpos. pose proof (totalDelay_bound _ _ Hcap) as Htot.
  rewrite length_map, Hlen in Htot. nia.
Qed.

(** X10.  [retry] makes no call exactly when [maxAttempts] is less than
    1, which for an integer [maxAttempts] means negative, 0 selecting the
    default 3; it then rejects at once with
    [Failed after <maxAttempts> attempts: undefined], where the digits are
    those of a safe integer, and leaves the world as it was. *)
Theorem retry_no_call_iff rt fn options w :
  (calls (snd (retry rt fn options w)) = calls w
   <-> effectiveMaxAttempts options < 1)
  /\ (effectiveMaxAttempts options < 1 ->
      safeInteger (effectiveMaxAttempts options) = true ->
      retry rt fn options w
      = (Rejected ("Failed after " ++ decimal (effectiveMaxAttempts options)
                   ++ " attempts: undefined"), w)).
Proof.
  assert (Hnone : effectiveMaxAttempts options < 1 ->
                  retry rt fn options w
                  = (Rejected (exhaustedText options None), w)).
  { intros Hle. unfold retry. rewrite retryLoop_unfold.
    destruct (Z.leb_spec 1 (effectiveMaxAttempts options)); [lia|reflexivity]. }
  split; [split|intros Hle _; exact (Hnone Hle)].
  - intros Hsame.
    destruct (retry_run rt fn options w) as (n & K & Hc & _ & _ & _ & Hres).
    destruct (fst (retry rt fn options w)) as [v|msg|].
    + destruct Hres as [Hn _]. lia.
    + destruct Hres as [Hn _]. lia.
    + contradiction.
  - intros Hle. rewrite (Hnone Hle). reflexivity.
Qed.

(** X11.  With a non-negative [initialDelay] and a [backoffFactor] of at
    least 1 the delays never decrease from one attempt to the next, and
    once a delay has reached [maxDelay] all later ones equal [maxDelay]. *)
Theorem backoffDelay_monotone options (k : Z) :
  0 <= effectiveInitialDelay options ->
  1 <= effectiveBackoffFactor options ->
  1 <= k ->
  backoffDelay options k <= backoffDelay options (k + 1)
  /\ (backoffDelay options k = effectiveMaxDelay options ->
      backoffDelay options (k + 1) = effectiveMaxDelay options).
Proof.
  intros Hinit Hfactor Hk. unfold backoffDelay.
  replace (k + 1 - 1) with (Z.succ (k - 1)) by lia.
  rewrite Z.pow_succ_r by lia.
  assert (Hpow : 0 < effectiveBackoffFactor options ^ (k - 1))
    by (apply Z.pow_pos_nonneg; lia).
  assert (Hstep : effectiveInitialDelay options
                  * effectiveBackoffFactor options ^ (k - 1)
                  <= effectiveInitialDelay options
                     * (effectiveBackoffFactor options
                        * effectiveBackoffFactor options ^ (k - 1))) by nia.
  split; lia.
Qed.
(** * Further properties of the wait wrappers *)

Lemma pollUntil_ext rt fuel fn condition o1 o2 w :
  effectiveMaxWait o1 = effectiveMaxWait o2 ->
  effectivePollInterval o1 = effectivePollInterval o2 ->
  timeoutMessage o1 = timeoutMessage o2 ->
  pollUntil rt fuel fn condition o1 w = pollUntil rt fuel fn condition o2 w.
Proof.
  intros Hw Hi Hm. rewrite !pollUntil_eq. apply pollLoop_ext; assumption.
Qed.

(** X12.  A wrapper called with [maxWait = 0] waits neither 0 ms nor its
    own default: the 0 reaches [pollUntil], which replaces it by 30000,
    while the messages built by the wrapper still say [0ms]. *)
Theorem wrappers_zero_wait_uses_poll_default rt fuel w :
  (forall client id,
     waitForBankAccountVerification rt fuel client id (Some 0) w
     = (pollUntil rt fuel (getBankAccount client id) bankAccountVerified
          {| maxWait := Some 30000; pollInterval := Some 5000;
             timeoutMessage :=
               Some ("Bank account " ++ id ++ " not verified after 0ms") |} ;;
        ret JUndefined) w)
  /\ (forall fn,
        waitForAchDebitCompletion rt fuel fn (Some 0) w
        = pollUntil rt fuel fn achDebitCompleted
            {| maxWait := Some 30000; pollInterval := Some 10000;
               timeoutMessage := Some "ACH debit not completed in time" |} w)
  /\ (forall fn,
        waitForOrderFill rt fuel fn (Some 0) w
        = pollUntil rt fuel fn orderFilled
            {| maxWait := Some 30000; pollInterval := Some 2000;
               timeoutMessage := Some "Order not filled in time" |} w)
  /\ (forall fn threshold,
        waitForTransactionConfirmation rt fuel fn threshold (Some 0) w
        = pollUntil rt fuel fn (transactionConfirmed rt (defaultArg threshold 1))
            {| maxWait := Some 30000; pollInterval := Some 15000;
               timeoutMessage := Some "Transaction not confirmed after 0ms" |} w)
  /\ (forall fn,
        waitForLightningInvoicePaid rt fuel fn (Some 0) w
        = pollUntil rt fuel fn lightningInvoicePaid
            {| maxWait := Some 30000; pollInterval := Some 3000;
               timeoutMessage := Some "Lightning invoice not paid in time" |} w)
  /\ (forall fn,
        waitForKycApproval rt fuel fn (Some 0) w
        = pollUntil rt fuel fn kycApproved
            {| maxWait := Some 30000; pollInterval := Some 10000;
               timeoutMessage := Some "KYC identity not approved in time" |} w).
Proof.
  repeat match goal with |- _ /\ _ => split end; intros;
    unfold waitForBankAccountVerification, waitForAchDebitCompletion,
      waitForOrderFill, waitForTransactionConfirmation,
      waitForLightningInvoicePaid, waitForKycApproval, bind;
    cbn [defaultArg];
    try (apply pollUntil_ext; reflexivity).
  rewrite (pollUntil_ext rt fuel (getBankAccount client id) bankAccountVerified
             (bankAccountOptions id 0)
             {| maxWait := Some 30000; pollInterval := Some 5000;
                timeoutMessage :=
                  Some ("Bank account " ++ id ++ " not verified after 0ms") |} w);
    reflexivity.
Qed.

Lemma strictEqStr_true v lit : strictEqStr v lit = true -> v = JStr lit.
Proof.
  destruct v; cbn; try discriminate.
  intros H. apply String.eqb_eq in H. congruence.
Qed.

Lemma oneOf_three v a b c :
  strictEqStr v a || strictEqStr v b || strictEqStr v c = true ->
  exists s, v = JStr s /\ In s [a; b; c].
Proof.
  intros H. apply orb_true_iff in H. destruct H as [H|H].
  - apply orb_true_iff in H. destruct H as [H|H];
      apply strictEqStr_true in H; eexists; (split; [exact H|]); cbn; tauto.
  - apply strictEqStr_true in H. eexists. split; [exact H|]. cbn. tauto.
Qed.

Lemma resolved_satisfies rt fuel fn condition options w r :
  fst (pollUntil rt fuel fn condition options w) = Resolved r ->
  condition r = Value true.
Proof.
  intros Hres.
  destruct (proj2 (pollUntil_first_match rt fuel fn condition options w) r Hres)
    as (N & _ & _ & Hcond).
  exact Hcond.
Qed.

(** X13.  What a caller may rely on when a wrapper resolves: the result
    is neither [null] nor [undefined] and the status it carries is one of
    the wrapper's terminal states (for the transaction wrapper, or its
    confirmation count has reached the threshold);
    [waitForBankAccountVerification] resolves with [undefined] only. *)
Theorem wrappers_resolve_on_terminal_status rt fuel w wait :
  (forall fn r,
     fst (waitForAchDebitCompletion rt fuel fn wait w) = Resolved r ->
     exists s, getProp r "status" = Value (JStr s)
               /\ In s ["completed"; "settled"; "done"])
  /\ (forall fn r,
        fst (waitForOrderFill rt fuel fn wait w) = Resolved r ->
        exists s, getProp r "status" = Value (JStr s)
                  /\ In s ["filled"; "done"; "settled"])
  /\ (forall fn r,
        fst (waitForLightningInvoicePaid rt fuel fn wait w) = Resolved r ->
        exists s, getProp r "status" = Value (JStr s)
                  /\ In s ["paid"; "settled"; "completed"])
  /\ (forall fn r,
        fst (waitForKycApproval rt fuel fn wait w) = Resolved r ->
        exists first s,
          getProp r "status" = Value first
          /\ In s ["approved"; "verified"; "complete"]
          /\ (first = JStr s
              \/ (truthy first = false
                  /\ getProp r "verificationStatus" = Value (JStr s))))
  /\ (forall fn threshold r,
        fst (waitForTransactionConfirmation rt fuel fn threshold wait w)
        = Resolved r ->
        exists status field,
          getProp r "status" = Value status
          /\ getProp r "confirmations" = Value field
          /\ (status = JStr "confirmed" \/ status = JStr "complete"
              \/ numGe (toNumber rt (if truthy field then field
                                     else JNum (JInt 0)))
                       (defaultArg threshold 1) = true))
  /\ (forall client id r,
        fst (waitForBankAccountVerification rt fuel client id wait w)
        = Resolved r ->
        r = JUndefined).
Proof.
  repeat match goal with |- _ /\ _ => split end;
    [| | | | |
     intros client id r Hres;
     unfold waitForBankAccountVerification, bind in Hres;
     destruct (pollUntil rt fuel (getBankAccount client id) bankAccountVerified
                 (bankAccountOptions id (defaultArg wait 120000)) w)
       as [[v|m|] w']; cbn in Hres; congruence].
  - intros fn r Hres. apply resolved_satisfies in Hres.
    unfold achDebitCompleted, andThen in Hres.
    destruct (getProp r "status") as [status|e]; [|discriminate].
    injection Hres as Hres. destruct (oneOf_three _ _ _ _ Hres) as (s & -> & Hin).
    exists s. split; [reflexivity|exact Hin].
  - intros fn r Hres. apply resolved_satisfies in Hres.
    unfold orderFilled, andThen in Hres.
    destruct (getProp r "status") as [status|e]; [|discriminate].
    injection Hres as Hres. destruct (oneOf_three _ _ _ _ Hres) as (s & -> & Hin).
    exists s. split; [reflexivity|exact Hin].
  - intros fn r Hres. apply resolved_satisfies in Hres.
    unfold lightningInvoicePaid, andThen in Hres.
    destruct (getProp r "status") as [status|e]; [|discriminate].
    injection Hres as Hres. destruct (oneOf_three _ _ _ _ Hres) as (s & -> & Hin).
    exists s. split; [reflexivity|exact Hin].
  - intros fn r Hres. apply resolved_satisfies in Hres.
    unfold kycApproved, andThen in Hres.
    destruct (getProp r "status") as [first|e]; [|discriminate].
    destruct (truthy first) eqn:Htruthy.
    + injection Hres as Hres. destruct (oneOf_three _ _ _ _ Hres) as (s & -> & Hin).
      exists (JStr s), s. repeat split; [exact Hin|left; reflexivity].
    + destruct (getProp r "verificationStatus") as [second|e]; [|discriminate].
      injection Hres as Hres. destruct (oneOf_three _ _ _ _ Hres) as (s & -> & Hin).
      exists first, s. repeat split; [exact Hin|right; split; [exact Htruthy|reflexivity]].
  - intros fn threshold r Hres. apply resolved_satisfies in Hres.
    unfold transactionConfirmed, andThen in Hres.
    destruct (getProp r "status") as [status|e]; [|discriminate].
    destruct (getProp r "confirmations") as [field|e]; [|discriminate].
    injection Hres as Hres. exists status, field.
    split; [reflexivity|]. split; [reflexivity|].
    apply orb_true_iff in Hres. destruct Hres as [Hres|Hres]; [|tauto].
    apply orb_true_iff in Hres.
    destruct Hres as [Hres|Hres]; apply strictEqStr_true in Hres; tauto.
Qed.

Ltac own_message :=
  match goal with
  | H : fst ?run = Rejected ?msg |- _ =>
      unfold waitForAchDebitCompletion, waitForOrderFill,
        waitForTransactionConfirmation, waitForLightningInvoicePaid,
        waitForKycApproval in H;
      match type of H with
      | fst (pollUntil ?rt ?fuel ?fn ?c ?o ?w) = _ =>
          apply (pollUntil_rejection_prefix rt fuel fn c o w _ msg eq_refl);
          [discriminate|exact H]
      end
  end.

(** X14.  A wrapper rejects with its own timeout error only: whenever
    one of the six wrappers rejects, the message begins with the
    wrapper's timeout message.  The messages of the bank account and of
    the transaction wrapper state [maxWait], spelled here with the digits
    of a safe integer. *)
Theorem wrappers_reject_with_own_message rt fuel w wait msg :
  (forall client id,
     safeInteger (defaultArg wait 120000) = true ->
     fst (waitForBankAccountVerification rt fuel client id wait w) = Rejected msg ->
     isPrefix ("Bank account " ++ id ++ " not verified after "
               ++ decimal (defaultArg wait 120000) ++ "ms") msg = true)
  /\ (forall fn,
        fst (waitForAchDebitCompletion rt fuel fn wait w) = Rejected msg ->
        isPrefix "ACH debit not completed in time" msg = true)
  /\ (forall fn,
        fst (waitForOrderFill rt fuel fn wait w) = Rejected msg ->
        isPrefix "Order not filled in time" msg = true)
  /\ (forall fn threshold,
        safeInteger (defaultArg wait 600000) = true ->
        fst (waitForTransactionConfirmation rt fuel fn threshold wait w)
        = Rejected msg ->
        isPrefix ("Transaction not confirmed after "
                  ++ decimal (defaultArg wait 600000) ++ "ms") msg = true)
  /\ (forall fn,
        fst (waitForLightningInvoicePaid rt fuel fn wait w) = Rejected msg ->
        isPrefix "Lightning invoice not paid in time" msg = true)
  /\ (forall fn,
        fst (waitForKycApproval rt fuel fn wait w) = Rejected msg ->
        isPrefix "KYC identity not approved in time" msg = true).
Proof.
  repeat match goal with |- _ /\ _ => split end.
  - intros client id _ Hrej. unfold waitForBankAccountVerification, bind in Hrej.
    destruct (pollUntil rt fuel (getBankAccount client id) bankAccountVerified
                (bankAccountOptions id (defaultArg wait 120000)) w)
      as [[r|m|] w'] eqn:Hrun; cbn in Hrej; try discriminate.
    injection Hrej as ->.
    apply (pollUntil_rejection_prefix rt fuel (getBankAccount client id)
             bankAccountVerified
             (bankAccountOptions id (defaultArg wait 120000)) w).
    + reflexivity.
    + discriminate.
    + rewrite Hrun. reflexivity.
  - intros fn Hrej.
    own_message.
  - intros fn Hrej.
    own_message.
  - intros fn threshold _ Hrej.
    own_message.
  - intros fn Hrej.
    own_message.
  - intros fn Hrej.
    own_message.
Qed.

(** * Properties of cleanupTestResources *)

Lemma deleteTestAccounts_requests client accounts :
  forall st,
    requests (deleteTestAccounts client accounts st)
    = (requests st ++ map DeleteBankAccountCall (accountsToDelete accounts))%list.
Proof.
  unfold accountsToDelete.
  induction accounts as [|a rest IH]; intros st; cbn [deleteTestAccounts filter map].
  - rewrite app_nil_r. reflexivity.
  - rewrite IH. destruct (isTestName (accountName a)); [|reflexivity].
    cbn [map]. destruct (deleteBankAccount client (requests st) (accountId a));
      cbn [requests requested countBankAccount pushError];
      rewrite <- app_assoc; reflexivity.
Qed.

Lemma deleteTestKeys_requests client current keys :
  forall st,
    requests (deleteTestKeys client current keys st)
    = (requests st ++ map DeleteApiKeyCall (keysToDelete current keys))%list.
Proof.
  unfold keysToDelete.
  induction keys as [|k rest IH]; intros st; cbn [deleteTestKeys filter map].
  - rewrite app_nil_r. reflexivity.
  - rewrite IH. destruct (negb (isCurrentKey current k) && isTestKey k); [|reflexivity].
    cbn [map]. destruct (deleteApiKey client (requests st) (keyId k));
      cbn [requests requested countApiKey pushError];
      rewrite <- app_assoc; reflexivity.
Qed.

(** X15.  The cleanup asks for the deletion of exactly the listed bank
    accounts whose name contains [test] or [e2e] in any letter case, each
    once and in the order of the listing, whether or not earlier deletions
    failed; when the listing fails or has no [bankAccounts] field it
    deletes no bank account. *)
Theorem cleanup_deletes_test_accounts client current :
  filter (fun call => match call with
                      | DeleteBankAccountCall _ => true
                      | _ => false
                      end)
         (requests (cleanupTestResources client current))
  = match listBankAccounts client [] with
    | Value (Some accounts) =>
        map DeleteBankAccountCall (accountsToDelete accounts)
    | _ => []
    end.
Proof.
  set (isBank := fun call => match call with
                             | DeleteBankAccountCall _ => true
                             | _ => false
                             end).
  assert (Hkeys : forall ids, filter isBank (map DeleteApiKeyCall ids) = []).
  { induction ids as [|i ids IH]; [reflexivity|exact IH]. }
  assert (Hbank : forall ids,
             filter isBank (map DeleteBankAccountCall ids)
             = map DeleteBankAccountCall ids).
  { induction ids as [|i ids IH]; [reflexivity|]. cbn. rewrite IH. reflexivity. }
  unfold cleanupTestResources, apiKeyPhase.
  set (st1 := bankAccountPhase client cleanupStart).
  assert (H1 : filter isBank (requests st1)
               = match listBankAccounts client [] with
                 | Value (Some accounts) =>
                     map DeleteBankAccountCall (accountsToDelete accounts)
                 | _ => []
                 end).
  { subst st1. unfold bankAccountPhase. cbn [requests cleanupStart].
    destruct (listBankAccounts client []) as [[accounts|]|e]; [|reflexivity|reflexivity].
    rewrite deleteTestAccounts_requests. cbn [requests requested cleanupStart app].
    apply Hbank. }
  destruct (listApiKeys client (requests st1)) as [keys|e].
  - rewrite deleteTestKeys_requests. cbn [requests requested].
    rewrite !filter_app, Hkeys, H1. cbn [filter isBank]. rewrite !app_nil_r.
    reflexivity.
  - cbn [requests requested pushError]. rewrite filter_app, H1. cbn.
    rewrite app_nil_r. reflexivity.
Qed.

(** X16.  The cleanup asks for the deletion of an API key exactly when
    the key was listed with a name containing [test] or [e2e] and with an
    [apiKey] field that is not strictly equal to [MAGNOLIA_API_KEY].  So an
    id is never deleted when each of its listed entries carries the key in
    use.  The listing decides: an entry without [apiKey] field differs
    from a variable that is set, and a key so listed under a test name is
    deleted, be it the one in use; it equals a variable that is not set,
    and is kept then. *)
Theorem cleanup_spares_current_key client current id :
  (In (DeleteApiKeyCall id) (requests (cleanupTestResources client current))
   <-> exists keys key,
         listApiKeys client (requests (bankAccountPhase client cleanupStart))
         = Value keys
         /\ In key keys
         /\ keyId key = id
         /\ isCurrentKey current key = false
         /\ isTestKey key = true)
  /\ (forall keys value,
        listApiKeys client (requests (bankAccountPhase client cleanupStart))
        = Value keys ->
        current = Some value ->
        (forall key, In key keys -> keyId key = id -> keyApiKey key = Some value) ->
        ~ In (DeleteApiKeyCall id) (requests (cleanupTestResources client current)))
  /\ (forall keys key value,
        listApiKeys client (requests (bankAccountPhase client cleanupStart))
        = Value keys ->
        In key keys -> keyId key = id ->
        keyApiKey key = None -> isTestKey key = true ->
        current = Some value ->
        In (DeleteApiKeyCall id) (requests (cleanupTestResources client current)))
  /\ (forall keys,
        listApiKeys client (requests (bankAccountPhase client cleanupStart))
        = Value keys ->
        current = None ->
        (forall key, In key keys -> keyId key = id -> keyApiKey key = None) ->
        ~ In (DeleteApiKeyCall id) (requests (cleanupTestResources client current))).
Proof.
  assert (Hiff :
    In (DeleteApiKeyCall id) (requests (cleanupTestResources client current))
    <-> exists keys key,
          listApiKeys client (requests (bankAccountPhase client cleanupStart))
          = Value keys
          /\ In key keys
          /\ keyId key = id
          /\ isCurrentKey current key = false
          /\ isTestKey key = true);
    [|split; [exact Hiff|split; [|split]]].
  2: { intros keys value Hlist Hcur Hall Hin.
       apply Hiff in Hin. destruct Hin as (keys' & key & Hlist' & Hk & Hid & Hnot & _).
       rewrite Hlist in Hlist'. injection Hlist' as <-.
       unfold isCurrentKey in Hnot. rewrite (Hall key Hk Hid), Hcur in Hnot.
       rewrite String.eqb_refl in Hnot. discriminate. }
  2: { intros keys key value Hlist Hk Hid Hnone Htest Hcur.
       apply Hiff. exists keys, key. repeat split; try assumption.
       unfold isCurrentKey. rewrite Hnone, Hcur. reflexivity. }
  2: { intros keys Hlist Hcur Hall Hin.
       apply Hiff in Hin. destruct Hin as (keys' & key & Hlist' & Hk & Hid & Hnot & _).
       rewrite Hlist in Hlist'. injection Hlist' as <-.
       unfold isCurrentKey in Hnot. rewrite (Hall key Hk Hid), Hcur in Hnot.
       discriminate. }
  unfold cleanupTestResources, apiKeyPhase.
  set (st1 := bankAccountPhase client cleanupStart).
  assert (Hnot : ~ In (DeleteApiKeyCall id) (requests st1)).
  { subst st1. unfold bankAccountPhase. cbn [requests cleanupStart].
    destruct (listBankAccounts client []) as [[accounts|]|e].
    - rewrite deleteTestAccounts_requests. cbn [requests requested cleanupStart app].
      intros [H|H]; [discriminate|].
      apply in_map_iff in H. destruct H as (x & Hx & _). discriminate.
    - cbn. intros [H|[]]. discriminate.
    - cbn. intros [H|[]]. discriminate. }
  destruct (listApiKeys client (requests st1)) as [keys|e].
  - rewrite deleteTestKeys_requests. cbn [requests requested].
    rewrite !in_app_iff. unfold keysToDelete. split.
    + intros [[H|H]|H]; [contradiction| |].
      * destruct H as [H|[]]. discriminate.
      * apply in_map_iff in H. destruct H as (i & Hi & Hin). injection Hi as ->.
        apply in_map_iff in Hin. destruct Hin as (key & Hid & Hin).
        apply filter_In in Hin. destruct Hin as [Hin Hsel].
        apply andb_true_iff in Hsel. destruct Hsel as [Hcur Htest].
        apply negb_true_iff in Hcur.
        exists keys, key. repeat split; assumption.
    + intros (keys' & key & Heq & Hin & Hid & Hcur & Htest).
      injection Heq as <-. right.
      apply in_map_iff. exists id. split; [reflexivity|].
      apply in_map_iff. exists key. split; [exact Hid|].
      apply filter_In. split; [exact Hin|]. rewrite Hcur, Htest. reflexivity.
  - cbn [requests requested pushError]. rewrite in_app_iff. split.
    + intros [H|[H|[]]]; [contradiction|discriminate].
    + intros (keys & key & Heq & _). discriminate.
Qed.

Lemma deleteTestAccounts_balance client accounts :
  forall st,
    (deletedBankAccounts (deleteTestAccounts client accounts st)
     + deletedApiKeys (deleteTestAccounts client accounts st)
     + List.length (errors (deleteTestAccounts client accounts st))
     = deletedBankAccounts st + deletedApiKeys st + List.length (errors st)
       + List.length (accountsToDelete accounts))%nat.
Proof.
  unfold accountsToDelete.
  induction accounts as [|a rest IH]; intros st; cbn [deleteTestAccounts filter map].
  - cbn. lia.
  - rewrite IH. destruct (isTestName (accountName a)); [|lia].
    destruct (deleteBankAccount client (requests st) (accountId a));
      cbn [deletedBankAccounts deletedApiKeys errors requested countBankAccount
           pushError map List.length];
      rewrite ?length_app; cbn [List.length]; lia.
Qed.

Lemma deleteTestKeys_balance client current keys :
  forall st,
    (deletedBankAccounts (deleteTestKeys client current keys st)
     + deletedApiKeys (deleteTestKeys client current keys st)
     + List.length (errors (deleteTestKeys client current keys st))
     = deletedBankAccounts st + deletedApiKeys st + List.length (errors st)
       + List.length (keysToDelete current keys))%nat.
Proof.
  unfold keysToDelete.
  induction keys as [|k rest IH]; intros st; cbn [deleteTestKeys filter map].
  - cbn. lia.
  - rewrite IH. destruct (negb (isCurrentKey current k) && isTestKey k); [|lia].
    destruct (deleteApiKey client (requests st) (keyId k));
      cbn [deletedBankAccounts deletedApiKeys errors requested countApiKey
           pushError map List.length];
      rewrite ?length_app; cbn [List.length]; lia.
Qed.

(** X17.  Nothing is lost in the summary the cleanup returns: every
    delete call is counted once, as a deleted bank account, a deleted API
    key or an error, and each listing that fails adds one error; a failed
    deletion or a failed bank-account listing does not stop the cleanup. *)
Theorem cleanup_summary_balance client current :
  (deletedBankAccounts (cleanupTestResources client current)
   + deletedApiKeys (cleanupTestResources client current)
   + List.length (errors (cleanupTestResources client current))
   = List.length (filter isDelete (requests (cleanupTestResources client current)))
     + listFailures client)%nat
  /\ In ListApiKeysCall (requests (cleanupTestResources client current)).
Proof.
  assert (HdelB : forall ids,
             filter isDelete (map DeleteBankAccountCall ids)
             = map DeleteBankAccountCall ids).
  { induction ids as [|i ids IH]; [reflexivity|]. cbn. rewrite IH. reflexivity. }
  assert (HdelK : forall ids,
             filter isDelete (map DeleteApiKeyCall ids) = map DeleteApiKeyCall ids).
  { induction ids as [|i ids IH]; [reflexivity|]. cbn. rewrite IH. reflexivity. }
  unfold cleanupTestResources, listFailures.
  set (st1 := bankAccountPhase client cleanupStart).
  assert (H1 : (deletedBankAccounts st1 + deletedApiKeys st1
                + List.length (errors st1)
                = List.length (filter isDelete (requests st1))
                  + match listBankAccounts client [] with
                    | Throw _ => 1
                    | Value _ => 0
                    end)%nat).
  { subst st1. unfold bankAccountPhase. cbn [requests cleanupStart].
    destruct (listBankAccounts client []) as [[accounts|]|e]; [|reflexivity|reflexivity].
    rewrite deleteTestAccounts_balance, deleteTestAccounts_requests.
    cbn [requests requested cleanupStart app deletedBankAccounts deletedApiKeys
         errors filter isDelete List.length].
    rewrite HdelB, length_map. lia. }
  unfold apiKeyPhase.
  destruct (listApiKeys client (requests st1)) as [keys|e].
  - split.
    + rewrite deleteTestKeys_balance, deleteTestKeys_requests.
      cbn [requests requested deletedBankAccounts deletedApiKeys errors].
      rewrite !filter_app, HdelK, !length_app, length_map.
      cbn [filter isDelete List.length]. lia.
    + rewrite deleteTestKeys_requests. cbn [requests requested].
      rewrite !in_app_iff. left. right. left. reflexivity.
  - split.
    + cbn [requests requested pushError deletedBankAccounts deletedApiKeys errors].
      rewrite filter_app, !length_app. cbn [filter isDelete List.length]. lia.
    + cbn [requests requested pushError]. rewrite in_app_iff. right. left.
      reflexivity.
Qed.

(** * Properties of the client's requests *)

Lemma getKey_setKey_same key value object :
  getKey key (setKey key value object) = Some value.
Proof.
  induction object as [|[k v] rest IH]; cbn.
  - rewrite String.eqb_refl. reflexivity.
  - destruct (String.eqb_spec k key) as [->|Hne]; cbn.
    + rewrite String.eqb_refl. reflexivity.
    + destruct (String.eqb_spec k key); [contradiction|exact IH].
Qed.

Lemma getKey_setKey_other key other value object :
  other <> key ->
  getKey key (setKey other value object) = getKey key object.
Proof.
  intros Hne. induction object as [|[k v] rest IH]; cbn.
  - destruct (String.eqb_spec other key); [contradiction|reflexivity].
  - destruct (String.eqb_spec k other) as [->|Hko]; cbn.
    + destruct (String.eqb_spec other key); [contradiction|reflexivity].
    + destruct (String.eqb_spec k key); [reflexivity|exact IH].
Qed.

(** A key of [extra] overrides the object; the last one given wins. *)
Lemma getKey_spread key extra :
  forall object,
    getKey key (spread object extra)
    = match getKey key (rev extra) with
      | Some v => Some v
      | None => getKey key object
      end.
Proof.
  unfold spread.
  induction extra as [|[k v] rest IH]; intros object; cbn [fold_left rev fst snd].
  - reflexivity.
  - rewrite IH.
    assert (Hrev : forall l,
               getKey key (l ++ [(k, v)])
               = match getKey key l with
                 | Some x => Some x
                 | None => if String.eqb k key then Some v else None
                 end).
    { induction l as [|[k' v'] l IHl]; cbn; [reflexivity|].
      destruct (String.eqb k' key); [reflexivity|exact IHl]. }
    rewrite Hrev. destruct (getKey key (rev rest)); [reflexivity|].
    destruct (String.eqb_spec k key) as [->|Hne].
    + apply getKey_setKey_same.
    + apply getKey_setKey_other, Hne.
Qed.

(** X18.  The headers object the client hands to [fetch]: without headers
    of the caller it holds [Authorization: Bearer <apiKey>] and the
    client's [User-Agent]; a header of the caller replaces the client's
    under the same key; whenever a non-empty body is sent, the key
    [Content-Type], in this spelling, holds [application/json], replacing
    what the caller gave under it; and every header the caller gave under
    another key, another spelling of that name such as [content-type]
    included, is handed on as given.  The URL is the API URL, or the
    default one when none or an empty one was given, followed by the
    path. *)
Theorem request_headers apiKey apiUrl path options :
  (initHeaders options = None ->
   getKey "Authorization" (sentHeaders (requestSent apiKey apiUrl path options))
   = Some ("Bearer " ++ apiKey)
   /\ getKey "User-Agent" (sentHeaders (requestSent apiKey apiUrl path options))
      = Some "ClawBot-MCP/1.0")
  /\ (forall extra value,
        initHeaders options = Some extra ->
        getKey "Authorization" (rev extra) = Some value ->
        getKey "Authorization" (sentHeaders (requestSent apiKey apiUrl path options))
        = Some value)
  /\ (forall b,
        body options = Some b -> b <> EmptyString ->
        getKey "Content-Type" (sentHeaders (requestSent apiKey apiUrl path options))
        = Some "application/json")
  /\ url (requestSent apiKey apiUrl path options)
     = match apiUrl with
       | Some base => if String.eqb base EmptyString then DEFAULT_API_URL else base
       | None => DEFAULT_API_URL
       end ++ path
  /\ (forall extra key value,
        initHeaders options = Some extra ->
        key <> "Content-Type" ->
        getKey key (rev extra) = Some value ->
        getKey key (sentHeaders (requestSent apiKey apiUrl path options))
        = Some value).
Proof.
  repeat match goal with |- _ /\ _ => split end.
  - intros Hnone. unfold requestSent. cbn [sentHeaders]. rewrite Hnone.
    assert (Hct : "Content-Type" <> "Authorization") by discriminate.
    assert (Hct' : "Content-Type" <> "User-Agent") by discriminate.
    destruct (body options) as [b|]; [destruct (String.eqb b EmptyString)|];
      rewrite ?(getKey_setKey_other _ _ _ _ Hct),
              ?(getKey_setKey_other _ _ _ _ Hct');
      split; reflexivity.
  - intros extra value Hsome Hlast. unfold requestSent. cbn [sentHeaders].
    rewrite Hsome.
    assert (Hct : "Content-Type" <> "Authorization") by discriminate.
    destruct (body options) as [b|]; [destruct (String.eqb b EmptyString)|];
      rewrite ?(getKey_setKey_other _ _ _ _ Hct), getKey_spread, Hlast;
      reflexivity.
  - intros b Hb Hne. unfold requestSent. cbn [sentHeaders]. rewrite Hb.
    destruct (String.eqb_spec b EmptyString); [contradiction|].
    apply getKey_setKey_same.
  - reflexivity.
  - intros extra key value Hsome Hkey Hlast. unfold requestSent. cbn [sentHeaders].
    rewrite Hsome.
    assert (Hct : "Content-Type" <> key) by congruence.
    destruct (body options) as [b|]; [destruct (String.eqb b EmptyString)|];
      rewrite ?(getKey_setKey_other _ _ _ _ Hct), getKey_spread, Hlast;
      reflexivity.
Qed.

Lemma request_failed_throws parse apiKey apiUrl server path options k :
  replyFailed (server k (requestSent apiKey apiUrl path options)) ->
  exists e, outcome (request parse apiKey apiUrl server path options k) = Throw e.
Proof.
  unfold replyFailed, request. cbn [outcome].
  destruct (reply (server k (requestSent apiKey apiUrl path options)))
    as [[status text]|e].
  - intros ->. eexists. reflexivity.
  - intros _. exists e. reflexivity.
Qed.

Lemma request_ok_returns parse apiKey apiUrl server path options k status text r :
  reply (server k (requestSent apiKey apiUrl path options)) = Value (status, text) ->
  statusOk status = true ->
  parse text = Some r ->
  outcome (request parse apiKey apiUrl server path options k) = Value r.
Proof.
  intros Hreply Hok Hparse. unfold request. cbn [outcome].
  rewrite Hreply, Hok, Hparse. reflexivity.
Qed.

(** X19.  Waiting for an order over the real client: while the service
    answers the polled [GET .../orders/<id>] with a failure ([fetch]
    rejects or the status is not 2xx, a 404 for instance), the wait goes
    on; the first 2xx reply in time whose JSON body has a terminal status
    is what [waitForOrderFill] resolves with, as parsed.  The same run of
    replies on [GET /api/v2/bankaccounts/<id>] ends
    [waitForBankAccountVerification]. *)
Theorem waiting_over_http_tolerates_errors
    rt fuel parse apiKey apiUrl server wait w (N : nat) status text r :
  (N < fuel)%nat ->
  statusOk status = true ->
  parse text = Some r ->
  (forall accountId orderId,
     let sent := requestSent apiKey apiUrl
                   ("/api/prime/trading/v1/accounts/" ++ accountId
                    ++ "/orders/" ++ orderId) noInit in
     (forall j, (j < N)%nat -> replyFailed (server (calls w + j)%nat sent)) ->
     reply (server (calls w + N)%nat sent) = Value (status, text) ->
     orderFilled r = Value true ->
     elapsedAt rt (getOrder parse apiKey apiUrl server accountId orderId) 2000
               (calls w) (List.length (sleeps w)) N
     < effectiveMaxWait (orderFillOptions (defaultArg wait 60000)) ->
     url sent = orString apiUrl DEFAULT_API_URL
                ++ "/api/prime/trading/v1/accounts/" ++ accountId
                ++ "/orders/" ++ orderId
     /\ fst (waitForOrderFill rt fuel
               (getOrder parse apiKey apiUrl server accountId orderId) wait w)
        = Resolved r
     /\ calls (snd (waitForOrderFill rt fuel
                      (getOrder parse apiKey apiUrl server accountId orderId)
                      wait w))
        = (calls w + N + 1)%nat)
  /\ (forall id,
        let sent := requestSent apiKey apiUrl ("/api/v2/bankaccounts/" ++ id)
                      noInit in
        (forall j, (j < N)%nat -> replyFailed (server (calls w + j)%nat sent)) ->
        reply (server (calls w + N)%nat sent) = Value (status, text) ->
        bankAccountVerified r = Value true ->
        elapsedAt rt (getBankAccount (magnoliaClient parse apiKey apiUrl server) id)
                  5000 (calls w) (List.length (sleeps w)) N
        < effectiveMaxWait (bankAccountOptions id (defaultArg wait 120000)) ->
        fst (waitForBankAccountVerification rt fuel
               (magnoliaClient parse apiKey apiUrl server) id wait w)
        = Resolved JUndefined
        /\ calls (snd (waitForBankAccountVerification rt fuel
                         (magnoliaClient parse apiKey apiUrl server) id wait w))
           = (calls w + N + 1)%nat).
Proof.
  intros Hfuel Hok Hparse. split.
  - intros accountId orderId sent Hfail Hreply Hcond Htime.
    split; [reflexivity|].
    unfold waitForOrderFill.
    destruct (pollUntil_after_failures rt fuel
                (getOrder parse apiKey apiUrl server accountId orderId)
                orderFilled (orderFillOptions (defaultArg wait 60000)) w N r)
      as (Hres & Hcalls & _); try assumption.
    + intros j Hj. apply request_failed_throws, Hfail, Hj.
    + exact (request_ok_returns parse apiKey apiUrl server _ noInit _ status text r
               Hreply Hok Hparse).
    + split; assumption.
  - intros id sent Hfail Hreply Hcond Htime.
    unfold waitForBankAccountVerification, bind.
    destruct (pollUntil_after_failures rt fuel
                (getBankAccount (magnoliaClient parse apiKey apiUrl server) id)
                bankAccountVerified
                (bankAccountOptions id (defaultArg wait 120000)) w N r)
      as (Hres & Hcalls & _); try assumption.
    + intros j Hj. apply request_failed_throws, Hfail, Hj.
    + exact (request_ok_returns parse apiKey apiUrl server _ noInit _ status text r
               Hreply Hok Hparse).
    + destruct (pollUntil rt fuel
                  (getBankAccount (magnoliaClient parse apiKey apiUrl server) id)
                  bankAccountVerified
                  (bankAccountOptions id (defaultArg wait 120000)) w)
        as [c w'] eqn:Hrun.
      cbn [fst snd] in Hres, Hcalls. subst c. cbn. split; [reflexivity|exact Hcalls].
Qed.

(** *** Instances of the further properties *)

Lemma pollUntil_call_bound_witness :
  Z.of_nat (calls (snd (pollUntil promptRuntime 10 (always (Value pendingResult))
                          neverTrue threeSeconds (initWorld 0)))
            - calls (initWorld 0)) * 1000
  < Z.max 0 3000 + 1000.
Proof.
  apply (pollUntil_call_bound promptRuntime 10 (always (Value pendingResult))
           neverTrue threeSeconds (initWorld 0)).
  split; discriminate.
Defined.

Lemma pollUntil_prompt_attempts_witness :
  Z.of_nat (calls (snd (pollUntil promptRuntime 3001 (always (Value pendingResult))
                          neverTrue threeSeconds (initWorld 0)))
            - calls (initWorld 0))
  = (3000 + 1000 - 1) / 1000.
Proof.
  apply (pollUntil_prompt_attempts promptRuntime 3001
           (always (Value pendingResult)) neverTrue threeSeconds (initWorld 0)).
  - split; discriminate.
  - reflexivity.
  - cbn. lia.
  - intros c. reflexivity.
  - intros s. reflexivity.
  - intros c. reflexivity.
Defined.

Lemma pollUntil_deadline_overrun_witness :
  3000 <= now (snd (pollUntil promptRuntime 10 alwaysFailing neverTrue
                      threeSeconds (initWorld 0))) - 0
  < 3000 + 0 + 1000 + 0.
Proof.
  apply (pollUntil_deadline_overrun promptRuntime 10 alwaysFailing neverTrue
           threeSeconds (initWorld 0)
           ("still pending" ++ newline ++ "Last result: undefined") 2).
  - vm_compute. reflexivity.
  - vm_compute. reflexivity.
Defined.

Lemma pollUntil_no_attempt_iff_witness :
  calls (snd (pollUntil promptRuntime 10 alwaysFailing neverTrue negativeWait
                (initWorld 0))) = 0%nat
  <-> effectiveMaxWait negativeWait <= 0.
Proof.
  apply (pollUntil_no_attempt_iff promptRuntime 10 alwaysFailing neverTrue
           negativeWait (initWorld 0)).
  lia.
Defined.

Lemma pollUntil_timeout_names_message_witness :
  isPrefix "still pending" ("still pending" ++ newline ++ "Last result: undefined")
  = true
  /\ includes ("still pending" ++ newline ++ "Last result: undefined")
              "still pending" = true.
Proof.
  apply (pollUntil_timeout_names_message promptRuntime 10 alwaysFailing neverTrue
           threeSeconds (initWorld 0)).
  - reflexivity.
  - discriminate.
  - vm_compute. reflexivity.
Defined.

Lemma retry_returns_first_success_witness :
  fst (retry promptRuntime (scripted [Throw "down"; Value filledOrder])
         sevenAttempts (initWorld 0)) = Resolved filledOrder.
Proof.
  apply (retry_returns_first_success promptRuntime
           (scripted [Throw "down"; Value filledOrder]) sevenAttempts
           (initWorld 0) 1 filledOrder).
  - reflexivity.
  - intros [|j] Hj; [exists "down"; reflexivity|lia].
  - reflexivity.
Defined.

Lemma retry_exhaustion_witness :
  fst (retry promptRuntime alwaysFailing threeAttempts (initWorld 0))
  = Rejected ("Failed after " ++ decimal (Z.of_nat 3) ++ " attempts: "
              ++ "not found").
Proof.
  apply (retry_exhaustion promptRuntime alwaysFailing threeAttempts
           (initWorld 0) 2 "not found").
  - reflexivity.
  - intros j _. exists "not found". reflexivity.
  - reflexivity.
Defined.

Lemma retry_no_call_iff_witness :
  retry promptRuntime alwaysFailing noAttempts (initWorld 0)
  = (Rejected ("Failed after " ++ decimal (effectiveMaxAttempts noAttempts)
               ++ " attempts: undefined"), initWorld 0).
Proof.
  apply (retry_no_call_iff promptRuntime alwaysFailing noAttempts (initWorld 0)).
  - cbn. lia.
  - reflexivity.
Defined.

Lemma retry_delays_capped_witness :
  exists delays,
    sleeps (snd (retry promptRuntime alwaysFailing sevenAttempts (initWorld 0)))
    = (sleeps (initWorld 0) ++ delays)%list
    /\ Forall (fun d => d <= 10000) delays.
Proof.
  destruct (retry_delays_capped promptRuntime alwaysFailing sevenAttempts
              (initWorld 0)) as (delays & Hs & Hcap & _).
  exists delays. split; [exact Hs|exact Hcap].
Defined.

Lemma backoffDelay_monotone_witness :
  backoffDelay sevenAttempts 3 <= backoffDelay sevenAttempts (3 + 1).
Proof.
  apply (backoffDelay_monotone sevenAttempts 3).
  - cbn. lia.
  - cbn. lia.
  - lia.
Defined.

Lemma wrappers_resolve_on_terminal_status_witness :
  exists s, getProp filledOrder "status" = Value (JStr s)
            /\ In s ["filled"; "done"; "settled"].
Proof.
  apply (proj1 (proj2 (wrappers_resolve_on_terminal_status promptRuntime 100
                         (initWorld 0) (Some 10000)))
           (scripted orderScript) filledOrder).
  vm_compute. reflexivity.
Defined.

Lemma wrappers_reject_with_own_message_witness :
  isPrefix "ACH debit not completed in time"
           ("ACH debit not completed in time" ++ newline
            ++ "Last result: undefined") = true.
Proof.
  apply (proj1 (proj2 (wrappers_reject_with_own_message promptRuntime 10
                         (initWorld 0) (Some 20000)
                         ("ACH debit not completed in time" ++ newline
                          ++ "Last result: undefined")))
           alwaysFailing).
  vm_compute. reflexivity.
Defined.

Lemma cleanup_spares_current_key_witness :
  In (DeleteApiKeyCall "k2")
     (requests (cleanupTestResources cleanupClient (Some "magfi_live")))
  /\ ~ In (DeleteApiKeyCall "k1")
          (requests (cleanupTestResources cleanupClient (Some "magfi_live"))).
Proof.
  split.
  - apply (proj2 (proj1 (cleanup_spares_current_key cleanupClient
                           (Some "magfi_live") "k2"))).
    exists listedKeys,
      {| keyId := "k2"; keyApiKey := Some "magfi_old"; keyName := Some "e2e runner" |}.
    repeat split. right. left. reflexivity.
  - intros Hin.
    apply (proj1 (proj1 (cleanup_spares_current_key cleanupClient
                           (Some "magfi_live") "k1")))
      in Hin.
    destruct Hin as (keys & key & Hkeys & Hin & Hid & Hcur & _).
    injection Hkeys as <-.
    destruct Hin as [<-|[<-|[<-|[]]]]; discriminate.
Defined.

Lemma request_headers_witness :
  getKey "Content-Type"
         (sentHeaders (requestSent "magfi_live" None "/api/v2/bankaccounts" jsonPost))
  = Some "application/json".
Proof.
  apply (proj1 (proj2 (proj2 (request_headers "magfi_live" None
                                "/api/v2/bankaccounts" jsonPost)))
           "{}").
  - reflexivity.
  - discriminate.
Defined.

Lemma waiting_over_http_tolerates_errors_witness :
  fst (waitForOrderFill promptRuntime 10
         (getOrder (parseKnown [filledOrder]) "magfi_live" None flakyServer
                   "acct" "order-1")
         None (initWorld 0))
  = Resolved filledOrder.
Proof.
  apply (proj1 (waiting_over_http_tolerates_errors promptRuntime 10
                  (parseKnown [filledOrder]) "magfi_live" None flakyServer None
                  (initWorld 0) 2 200 (stringifyText filledOrder) filledOrder
                  ltac:(lia) eq_refl eq_refl)
           "acct" "order-1").
  - intros [|[|j]] Hj; [reflexivity|reflexivity|lia].
  - reflexivity.
  - reflexivity.
  - reflexivity.
Defined.
(** * The attempts of a poll *)

(** X20.  The loop sleeps after every attempt that does not end it and
    never after the one that does: a poll that resolves after [n] calls
    has set [n - 1] timers, a poll that rejects after [n] calls has set
    [n], and every timer is for the poll interval. *)
Theorem pollUntil_sleeps_between_attempts rt fuel fn condition options w :
  exists n,
    calls (snd (pollUntil rt fuel fn condition options w)) = (calls w + n)%nat
    /\ match fst (pollUntil rt fuel fn condition options w) with
       | Resolved _ =>
           sleeps (snd (pollUntil rt fuel fn condition options w))
           = (sleeps w ++ repeat (effectivePollInterval options) (n - 1))%list
           /\ (1 <= n)%nat
       | Rejected _ =>
           sleeps (snd (pollUntil rt fuel fn condition options w))
           = (sleeps w ++ repeat (effectivePollInterval options) n)%list
       | OutOfFuel => True
       end.
Proof.
  rewrite pollUntil_eq.
  destruct (pollLoop_run rt fn condition options fuel (now w) JUndefined 0%nat w)
    as (n & k & Hc & Hs & _ & Hres).
  exists n. split; [exact Hc|].
  destruct (fst (pollLoop rt fuel fn condition options (now w) JUndefined 0 w))
    as [r|msg|].
  - destruct Hres as (Hn & _). subst n.
    replace (S k - 1)%nat with k by lia. split; [exact Hs|lia].
  - destruct Hres as (Hn & _). subst n. exact Hs.
  - exact I.
Qed.

(** X21.  [pollUntil] resolves with nothing but the result of the first
    attempt on which the predicate returned true: when it resolves with
    [r] after [n] calls, the last of these calls returned [r], the
    predicate is true on [r] and no earlier attempt satisfied it. *)
Theorem pollUntil_resolves_with_first_match rt fuel fn condition options w r :
  fst (pollUntil rt fuel fn condition options w) = Resolved r ->
  exists n,
    calls (snd (pollUntil rt fuel fn condition options w)) = (calls w + S n)%nat
    /\ outcome (fn (calls w + n)%nat) = Value r
    /\ condition r = Value true
    /\ forall j, (j < n)%nat -> succeeds condition (fn (calls w + j)%nat) = false.
Proof.
  rewrite pollUntil_eq. intros Hres.
  destruct (pollLoop_run rt fn condition options fuel (now w) JUndefined 0%nat w)
    as (n & k & Hc & _ & Hmiss & Hshape).
  rewrite Hres in Hshape. destruct Hshape as (Hn & Hout & Hcond). subst n.
  exists k. repeat split; assumption.
Qed.

Lemma pollUntil_resolves_with_first_match_witness :
  exists n,
    calls (snd (pollUntil promptRuntime 10 (scripted orderScript) orderFilled
                  noOptions (initWorld 0))) = (calls (initWorld 0) + S n)%nat
    /\ outcome (scripted orderScript (calls (initWorld 0) + n)%nat)
       = Value filledOrder
    /\ orderFilled filledOrder = Value true
    /\ forall j, (j < n)%nat ->
                 succeeds orderFilled
                          (scripted orderScript (calls (initWorld 0) + j)%nat)
                 = false.
Proof.
  apply (pollUntil_resolves_with_first_match promptRuntime 10
           (scripted orderScript) orderFilled noOptions (initWorld 0) filledOrder).
  vm_compute. reflexivity.
Defined.

(** * The clock of retry *)

(** X22.  A run of [retry] lasts exactly as long as its calls and its
    timers take: each of the [k] attempts that is followed by a timer costs
    the latency of its call, the delay the timer runs for and the lag of
    the timer, and the call that ends the run costs its latency.  The timer
    set after attempt [a] runs for the backoff delay of [a] when that is
    between 1 and 2^31 - 1 ms, and for 1 ms otherwise. *)
Theorem retry_clock rt fn options w :
  exists k : nat,
    List.length (sleeps (snd (retry rt fn options w)))
    = (List.length (sleeps w) + k)%nat
    /\ Z.of_nat k <= Z.max 0 (effectiveMaxAttempts options - 1)
    /\ now (snd (retry rt fn options w))
       = now w
         + elapsedWith rt fn
             (map (fun a =>
                     if (1 <=? backoffDelay options a)
                        && (backoffDelay options a <=? TIMEOUT_MAX)
                     then backoffDelay options a else 1)
                  (attemptsFrom 1 k))
             (calls w) (List.length (sleeps w))
         + (if 1 <=? effectiveMaxAttempts options
            then Z.of_N (latency (fn (calls w + k)%nat)) else 0).
Proof.
  unfold retry.
  destruct (retryLoop_clock rt fn options
              (S (Z.to_nat (effectiveMaxAttempts options))) 1 None w)
    as (k & Hsl & Hin & Hnow); [lia|].
  exists k. rewrite Hsl, length_app, length_map.
  assert (Hlen : forall n a, List.length (attemptsFrom a n) = n).
  { induction n as [|n IH]; intros a; cbn; [reflexivity|]. rewrite IH. reflexivity. }
  rewrite Hlen. split; [reflexivity|]. split; [|exact Hnow].
  destruct k as [|k]; [lia|].
  assert (Hlast : In (1 + Z.of_nat k) (attemptsFrom 1 (S k))).
  { apply nth_error_In with (n := k). apply nth_error_attemptsFrom. lia. }
  specialize (Hin _ Hlast). lia.
Qed.
